(** * ocs_ci/helpers/performance_lib.py : run_command

    A shallow embedding of [run_command] and of the Python builtins it
    calls, followed by the properties of the command runner.

    Layout:
    - [Py]        : Python values and the builtins used by the function
                    ([str.split], [bytes.decode], [list.pop], f-strings);
    - [Effects]   : log lines, calls to [subprocess.run], raised exceptions;
    - [Utils]     : [ocs_ci.utility.utils.mask_secrets];
    - [PerformanceLib] : [run_command] itself;
    - the theorems. *)

From Stdlib Require Import ZArith NArith String Ascii DecimalString.
From Stdlib.Strings Require Import Byte.
From stdpp Require Import base decidable option list gmap.

Set Default Proof Using "Type".
Set Warnings "-register-all".

(** ** Python values and builtins *)

Module Py.

(** A Python [str] is a sequence of Unicode code points. *)
Abbreviation str := (list N).

(** Source literals are ASCII; [lit] reads one as a [str]. *)
Definition lit (s : string) : str :=
  List.map N_of_ascii (list_ascii_of_string s).

(** The line feed, written ["\n"] in the source. *)
Definition LF : N := 10%N.

(** The objects a caller can hand to [run_command].  Everything that is
    neither [None], a [bool], an [int], a [str] nor a [list] (a float, a
    tuple, a dict, bytes, ...) is an [OOther], known by the text that
    [str()] and [repr()] print for it. *)
Inductive pyobj : Type :=
| ONone
| OBool (b : bool)
| OInt (z : Z)
| OStr (s : str)
| OList (l : list pyobj)
| OOther (text : str).

(** [isinstance(x, str)] and [isinstance(x, list)]. *)
Definition isinstance_str (x : pyobj) : bool :=
  match x with OStr _ => true | _ => false end.

Definition isinstance_list (x : pyobj) : bool :=
  match x with OList _ => true | _ => false end.

(** [x == "literal"] for a [str] literal: only an equal [str] compares
    equal. *)
Definition eq_str (x : pyobj) (s : str) : bool :=
  match x with OStr t => bool_decide (t = s) | _ => false end.

(** *** [str.isspace] and [str.split()] *)

(** The code points for which [str.isspace] holds, as in CPython's
    [_PyUnicode_IsWhitespace]. *)
Definition isspace (c : N) : bool :=
  ((0x09 <=? c) && (c <=? 0x0D) || (0x1C <=? c) && (c <=? 0x20)
   || (c =? 0x85) || (c =? 0xA0) || (c =? 0x1680)
   || (0x2000 <=? c) && (c <=? 0x200A)
   || (c =? 0x2028) || (c =? 0x2029) || (c =? 0x202F)
   || (c =? 0x205F) || (c =? 0x3000))%N.

(** Does [s] begin with a code point that is not whitespace? *)
Definition starts_word (s : str) : bool :=
  match s with
  | c :: _ => negb (isspace c)
  | [] => false
  end.

(** [s.split()]: the maximal runs of non-whitespace code points, in
    order; never an empty string. *)
Fixpoint split_ws (s : str) : list str :=
  match s with
  | [] => []
  | c :: s' =>
      if isspace c then split_ws s'
      else match split_ws s' with
           | w :: ws =>
               if starts_word s' then (c :: w) :: ws else [c] :: w :: ws
           | [] => [[c]]
           end
  end.

(** [s.split(sep)] for a separator of one code point (the source only
    calls [split("\n")]). *)
Fixpoint split_on (sep : N) (s : str) : list str :=
  match s with
  | [] => [[]]
  | c :: s' =>
      if (c =? sep)%N then [] :: split_on sep s'
      else match split_on sep s' with
           | w :: ws => (c :: w) :: ws
           | [] => [[c]]
           end
  end.

(** [l.pop()]: the list without its last element, together with that
    element; [None] stands for the [IndexError] on an empty list. *)
Definition pop {A} (l : list A) : option (list A * A) :=
  match last l with
  | Some x => Some (removelast l, x)
  | None => None
  end.

(** [sep.join(l)]. *)
Fixpoint join (sep : str) (l : list str) : str :=
  match l with
  | [] => []
  | [w] => w
  | w :: ws => w ++ sep ++ join sep ws
  end.

(** [sub in s] on strings. *)
Fixpoint starts_with (p s : str) : bool :=
  match p, s with
  | [], _ => true
  | a :: p', b :: s' => (a =? b)%N && starts_with p' s'
  | _ :: _, [] => false
  end.

Fixpoint contains (sub s : str) : bool :=
  starts_with sub s ||
  match s with
  | [] => false
  | _ :: s' => contains sub s'
  end.

(** [s.replace(old, new)]: occurrences are found left to right and do
    not overlap; an empty [old] matches before every code point and at
    the end. *)
Fixpoint replace_go (old new : str) (skip : nat) (s : str) : str :=
  match s with
  | [] => []
  | c :: s' =>
      match skip with
      | S k => replace_go old new k s'
      | O =>
          if starts_with old s
          then new ++ replace_go old new (length old - 1) s'
          else c :: replace_go old new 0 s'
      end
  end.

Definition replace (old new s : str) : str :=
  match old with
  | [] => new ++ flat_map (fun c => c :: new) s
  | _ :: _ => replace_go old new 0 s
  end.

(** *** [bytes.decode()] *)

Definition is_cont (b : N) : bool := ((0x80 <=? b) && (b <=? 0xBF))%N.

Definition cont_bits (b : N) : N := N.land b 0x3F.

(** Strict UTF-8: no overlong form, no surrogate, nothing above
    U+10FFFF.  [None] stands for [UnicodeDecodeError]. *)
Fixpoint utf8_decode (bs : list N) : option str :=
  match bs with
  | [] => Some []
  | b0 :: r0 =>
      if (b0 <? 0x80)%N then cons b0 <$> utf8_decode r0
      else if ((0xC2 <=? b0) && (b0 <=? 0xDF))%N then
        match r0 with
        | b1 :: r1 =>
            if is_cont b1
            then cons (N.lor (N.shiftl (N.land b0 0x1F) 6) (cont_bits b1))
                   <$> utf8_decode r1
            else None
        | _ => None
        end
      else if ((0xE0 <=? b0) && (b0 <=? 0xEF))%N then
        match r0 with
        | b1 :: b2 :: r2 =>
            let lo := if (b0 =? 0xE0)%N then 0xA0%N else 0x80%N in
            let hi := if (b0 =? 0xED)%N then 0x9F%N else 0xBF%N in
            if ((lo <=? b1) && (b1 <=? hi))%N && is_cont b2
            then cons (N.lor (N.shiftl (N.land b0 0x0F) 12)
                         (N.lor (N.shiftl (cont_bits b1) 6) (cont_bits b2)))
                   <$> utf8_decode r2
            else None
        | _ => None
        end
      else if ((0xF0 <=? b0) && (b0 <=? 0xF4))%N then
        match r0 with
        | b1 :: b2 :: b3 :: r3 =>
            let lo := if (b0 =? 0xF0)%N then 0x90%N else 0x80%N in
            let hi := if (b0 =? 0xF4)%N then 0x8F%N else 0xBF%N in
            if ((lo <=? b1) && (b1 <=? hi))%N && is_cont b2 && is_cont b3
            then cons (N.lor (N.shiftl (N.land b0 0x07) 18)
                         (N.lor (N.shiftl (cont_bits b1) 12)
                            (N.lor (N.shiftl (cont_bits b2) 6) (cont_bits b3))))
                   <$> utf8_decode r3
            else None
        | _ => None
        end
      else None
  end.

Definition decode (b : list byte) : option str :=
  utf8_decode (List.map Byte.to_N b).

(** The bytes of an ASCII source literal. *)
Definition blit (s : string) : list byte := list_byte_of_string s.

(** *** [str()], [repr()] and f-string fields *)

Definition str_of_int (z : Z) : str :=
  lit (NilZero.string_of_int (Z.to_int z)).

Definition hex_digit (n : N) : N :=
  (if n <? 10 then 48 + n else 87 + n)%N.

Fixpoint hex_fixed (width : nat) (n : N) : str :=
  match width with
  | O => []
  | S w => hex_fixed w (n / 16)%N ++ [hex_digit (n mod 16)%N]
  end.

Section Repr.
(** [str.isprintable] on one code point comes from the Unicode
    database of the interpreter; [repr] only consults it above ASCII. *)
Variable isprintable : N → bool.

Definition repr_char (quote c : N) : str :=
  if ((c =? quote) || (c =? 0x5C))%N then [0x5C%N; c]
  else if (c =? 0x09)%N then lit "\t"
  else if (c =? 0x0A)%N then lit "\n"
  else if (c =? 0x0D)%N then lit "\r"
  else if ((c <? 0x20) || (c =? 0x7F))%N then lit "\x" ++ hex_fixed 2 c
  else if (c <? 0x7F)%N then [c]
  else if isprintable c then [c]
  else if (c <=? 0xFF)%N then lit "\x" ++ hex_fixed 2 c
  else if (c <=? 0xFFFF)%N then lit "\u" ++ hex_fixed 4 c
  else lit "\U" ++ hex_fixed 8 c.

(** Single quotes, unless the text has a single quote and no double
    quote. *)
Definition repr_quote (s : str) : N :=
  if existsb (N.eqb 0x27) s && negb (existsb (N.eqb 0x22) s)
  then 0x22%N else 0x27%N.

Definition repr_str (s : str) : str :=
  let q := repr_quote s in
  q :: flat_map (repr_char q) s ++ [q].

Fixpoint repr (x : pyobj) : str :=
  match x with
  | ONone => lit "None"
  | OBool true => lit "True"
  | OBool false => lit "False"
  | OInt z => str_of_int z
  | OStr s => repr_str s
  | OList l => lit "[" ++ join (lit ", ") (List.map repr l) ++ lit "]"
  | OOther text => text
  end.

(** What an f-string field [{x}] prints: [str(x)]. *)
Definition format (x : pyobj) : str :=
  match x with
  | OStr s => s
  | _ => repr x
  end.
End Repr.

End Py.

(** ** Effects of the function: log lines, the child process, exceptions *)

Module Effects.
Import Py.

(** The levels of the [logging] calls made by the module's [logger]. *)
Inductive level : Type := DEBUG | INFO | WARNING | ERROR.

(** [subprocess.CompletedProcess], with both streams captured as bytes. *)
Record CompletedProcess : Type := {
  args : list pyobj;
  returncode : Z;
  stdout : list byte;
  stderr : list byte
}.

(** The same object when the options put the pipes in text mode ([text],
    [universal_newlines], [encoding] or [errors]): the two streams are
    then [str]. *)
Record TextProcess : Type := {
  text_args : list pyobj;
  text_returncode : Z;
  text_stdout : str;
  text_stderr : str
}.

(** What [subprocess.run] returns when it returns: the streams are
    pipes (lines 94-95), so each holds what was captured, as bytes or
    as text. *)
Inductive completed : Type :=
| Captured (cp : CompletedProcess)
| CapturedText (tp : TextProcess).

Coercion Captured : CompletedProcess >-> completed.

(** What a call leaves behind, in order: the messages handed to the
    logger and the calls of [subprocess.run(argv, timeout=..., **kwargs)]. *)
Inductive event : Type :=
| Log (lv : level) (msg : str)
| SubprocessRun (argv : list pyobj) (timeout : Z) (kwargs : gmap str pyobj).

(** The exceptions: [CommandFailed] and the builtin ones that the
    statements of the function can raise themselves, and [Foreign] for
    whatever a collaborator raises ([TimeoutExpired], [OSError],
    [JSONDecodeError], [YAMLError], ...), known by the name of its class. *)
Inductive exn : Type :=
| CommandFailed (msg : str)
| UnicodeDecodeError
| IndexError
| AttributeError
| TypeError
| Foreign (name : str).

Inductive outcome (A : Type) : Type :=
| Returns (a : A)
| Raises (e : exn).
Arguments Returns {A} a.
Arguments Raises {A} e.

(** A computation: the events it emitted and how it ended. *)
Definition M (A : Type) : Type := (list event * outcome A)%type.

Definition ret {A} (a : A) : M A := ([], Returns a).

Definition raise {A} (e : exn) : M A := ([], Raises e).

Definition events {A} (m : M A) : list event := fst m.
Definition result {A} (m : M A) : outcome A := snd m.

(** Sequencing: an exception ends the computation, the events so far
    stay. *)
Definition bind {A B} (m : M A) (k : A → M B) : M B :=
  match result m with
  | Returns a => (events m ++ events (k a), result (k a))
  | Raises e => (events m, Raises e)
  end.

Definition log (lv : level) (msg : str) : M unit := ([Log lv msg], Returns tt).

(** How a call of a collaborator ends: with a value, or with an
    exception of the collaborator, known by the name of its class. *)
Inductive reply (A : Type) : Type :=
| Ok (a : A)
| Failed (name : str).
Arguments Ok {A} & a.
Arguments Failed {A} name.

Definition outcome_of {A} (r : reply A) : outcome A :=
  match r with
  | Ok a => Returns a
  | Failed name => Raises (Foreign name)
  end.

(** A call of a collaborator that leaves no event. *)
Definition lift {A} (r : reply A) : M A := ([], outcome_of r).

(** A call of a collaborator that leaves the event [e]. *)
Definition call {A} (e : event) (r : reply A) : M A := ([e], outcome_of r).

(** The messages handed to the logger, at any level. *)
Definition logged {A} (m : M A) : list str :=
  omap (λ e, match e with Log _ msg => Some msg | _ => None end) (events m).

(** The calls of [subprocess.run]. *)
Definition spawned {A} (m : M A) : list (list pyobj * Z * gmap str pyobj) :=
  omap (λ e, match e with
             | SubprocessRun argv t kw => Some (argv, t, kw)
             | _ => None
             end) (events m).

(** [x ← m; k] and [m;; k] below are stdpp's notations for [bind]. *)
#[global] Instance M_ret : MRet M := @ret.
#[global] Instance M_bind : MBind M := λ A B k m, bind m k.

End Effects.

(** ** The collaborators of [run_command] *)

Module Collab.
Import Py Effects.

(** What [performance_lib] imports and calls but does not define: the
    masking helper of [ocs_ci.utility.utils], [subprocess.run],
    [json.loads], [yaml.safe_load], and the interpreter's table of
    printable code points used by [repr].

    The masking helper is known on a string and on a sequence, where it
    gives back the same shape: that is [mask_secrets].  On any other
    object it is not known to return: [mask_foreign] is its reply there.
    [subprocess.run] answers to the argument vector, the timeout and the
    options: it returns the finished process, in bytes or in text as the
    options have it, or raises ([TimeoutExpired], [CalledProcessError]
    when the options hold [check=True], [OSError], ...). *)
Class Externals : Type := {
  isprintable : N → bool;
  mask_secrets : pyobj → option (list str) → pyobj;
  mask_foreign : pyobj → option (list str) → reply pyobj;
  subprocess_run : list pyobj → Z → gmap str pyobj → reply completed;
  json_loads : str → reply pyobj;
  yaml_safe_load : str → reply pyobj
}.

End Collab.

(** ** ocs_ci.utility.utils *)

Module Utils.
Import Py.

(** The asterisks that stand for a secret. *)
Definition mask_token : str := lit "*****".

Definition mask_text (secrets : list str) (text : str) : str :=
  foldl (λ t secret, replace secret mask_token t) text secrets.

Definition mask_item (secrets : list str) (x : pyobj) : pyobj :=
  match x with
  | OStr s => OStr (mask_text secrets s)
  | other => other
  end.

(** Modelled from the spec: [mask_secrets] of ocs_ci/utility/utils.py,
    imported by performance_lib.py and not part of it.  Given a string
    or a sequence and a list of literal secrets it returns the same
    shape with each occurrence of a secret replaced by a fixed-width
    mask of asterisks; without secrets nothing is masked. *)
Definition mask_secrets (plaintext : pyobj) (secrets : option (list str)) : pyobj :=
  match secrets with
  | None => plaintext
  | Some l =>
      match plaintext with
      | OStr s => OStr (mask_text l s)
      | OList xs => OList (mask_item l <$> xs)
      | other => other
      end
  end.

(** Modelled from the spec: the same helper on an object that is neither
    a string nor a sequence.  Without secrets nothing is masked and the
    object comes back; with secrets each one is replaced in the text,
    by the text's own [replace], which such an object does not have. *)
Definition mask_foreign (plaintext : pyobj) (secrets : option (list str))
  : Effects.reply pyobj :=
  match secrets with
  | None | Some [] => Effects.Ok plaintext
  | Some (_ :: _) => Effects.Failed (lit "AttributeError")
  end.

End Utils.

(** ** ocs_ci.helpers.performance_lib *)

Module PerformanceLib.
Import Py Effects Collab.

(** [subprocess.PIPE]. *)
Definition PIPE : pyobj := OInt (-1).

(** What the function hands back: a Python object or the
    [CompletedProcess] itself. *)
Inductive value : Type :=
| VObj (o : pyobj)
| VProc (cp : CompletedProcess).

Section RunCommand.
Context `{E : Externals}.

(** An f-string field. *)
Definition fmt (x : pyobj) : str := format isprintable x.

(** Lines 87-92: the argument vector, or [None] when [cmd] is neither a
    [str] nor a [list] (the function then returns early). *)
Definition command_of (cmd : pyobj) : option (list pyobj) :=
  match cmd with
  | OStr s => Some (OStr <$> split_ws s)
  | OList l => Some l
  | _ => None
  end.

(** Lines 94-95: [for key in ["stdout", "stderr", "stdin"]:
    kwargs[key] = subprocess.PIPE]. *)
Definition force_pipes (kwargs : gmap str pyobj) : gmap str pyobj :=
  foldl (λ kw key, <[key := PIPE]> kw) kwargs
        [lit "stdout"; lit "stderr"; lit "stdin"].

(** Lines 97-99: an ["out_format"] entry of [kwargs] replaces the
    argument and is deleted from [kwargs]. *)
Definition take_out_format (out_format : pyobj) (kwargs : gmap str pyobj)
  : pyobj * gmap str pyobj :=
  match kwargs !! lit "out_format" with
  | Some v => (v, delete (lit "out_format") kwargs)
  | None => (out_format, kwargs)
  end.

(** [x.decode()] on captured bytes. *)
Definition decode_stream (b : list byte) : M str :=
  match decode b with
  | Some s => ret s
  | None => raise UnicodeDecodeError
  end.

(** Lines 140-141: [output = output.split("\n")] then [output.pop()]. *)
Definition split_and_pop (output : value) : M value :=
  match output with
  | VObj (OStr s) =>
      match pop (split_on LF s) with
      | Some (l, _) => ret (VObj (OList (OStr <$> l)))
      | None => raise IndexError
      end
  | _ => raise AttributeError
  end.

(** Lines 144 and 147: a parser applied to [output]. *)
Definition parse_with (loads : str → reply pyobj) (output : value) : M value :=
  match output with
  | VObj (OStr s) => o ← lift (loads s); ret (VObj o)
  | _ => raise TypeError
  end.

(** [if cond: output = f(output)]. *)
Definition when (cond : bool) (f : value → M value) (output : value) : M value :=
  if cond then f output else ret output.

(** Lines 133-147: the branch taken when the exit code is zero; the
    [if] statements follow each other, they are not alternatives. *)
Definition on_success (out_format : pyobj) (cp : CompletedProcess) (output : str)
  : M value :=
  let output := VObj (OStr output) in
  output ← when (eq_str out_format (lit "exit_code"))
                (λ _, ret (VObj (OInt (returncode cp)))) output;
  output ← when (eq_str out_format (lit "cpobj"))
                (λ _, ret (VProc cp)) output;
  output ← when (eq_str out_format (lit "list")) split_and_pop output;
  output ← when (eq_str out_format (lit "json")) (parse_with json_loads) output;
  output ← when (eq_str out_format (lit "yaml"))
                (parse_with yaml_safe_load) output;
  ret output.

(** Line 123: the text appended to the output on a non-zero exit code. *)
Definition annotation (rc : Z) (err : str) : str :=
  lit "Error in command (" ++ str_of_int rc ++ lit "): " ++ err.

(** Lines 125-128: the message of [CommandFailed]. *)
Definition failure_message (masked_cmd masked_stderr : pyobj) : str :=
  lit "Error during execution of command: " ++ fmt masked_cmd ++ lit "."
  ++ [LF] ++ lit "Error is " ++ fmt masked_stderr.

(** Lines 121-131: the branch taken when the exit code is not zero. *)
Definition on_failure (out_format : pyobj) (ignore_error : bool)
    (masked_cmd masked_stderr : pyobj)
    (cp : CompletedProcess) (output err : str) : M value :=
  log ERROR (lit "Command finished with non zero (" ++ str_of_int (returncode cp)
             ++ lit "): " ++ err);;
  let output := output ++ annotation (returncode cp) err in
  if negb ignore_error
  then raise (CommandFailed (failure_message masked_cmd masked_stderr))
  else if eq_str out_format (lit "cpobj") then ret (VProc cp)
  else ret (VObj (OStr output)).

(** Lines 103-149: what is done with the finished process. *)
Definition finish (cp : CompletedProcess) (masked_cmd out_format : pyobj)
    (secrets : option (list str)) (ignore_error : bool) : M value :=
  output ← decode_stream (stdout cp);
  err ← decode_stream (stderr cp);
  let masked_stdout := mask_secrets (OStr output) secrets in
  (if (0 <? length output)%nat
   then log DEBUG (lit "Command stdout: " ++ fmt masked_stdout)
   else log DEBUG (lit "Command stdout is empty"));;
  let masked_stderr := mask_secrets (OStr err) secrets in
  (if (0 <? length err)%nat
   then log WARNING (lit "Command stderr: " ++ fmt masked_stderr)
   else log DEBUG (lit "Command stderr is empty"));;
  log DEBUG (lit "Command return code: " ++ str_of_int (returncode cp));;
  if bool_decide (returncode cp ≠ 0%Z)
  then on_failure out_format ignore_error masked_cmd masked_stderr cp output err
  else on_success out_format cp output.

(** Lines 103-149 on what [subprocess.run] returned: a stream captured
    as text is a [str], which has no [decode]; line 103 then raises
    [AttributeError]. *)
Definition finish_completed (c : completed) (masked_cmd out_format : pyobj)
    (secrets : option (list str)) (ignore_error : bool) : M value :=
  match c with
  | Captured cp => finish cp masked_cmd out_format secrets ignore_error
  | CapturedText _ => raise AttributeError
  end.

(** Lines 94-102: the options are fixed, the process is run. *)
Definition run_argv (command : list pyobj) (masked_cmd : pyobj)
    (timeout : Z) (out_format : pyobj) (secrets : option (list str))
    (ignore_error : bool) (kwargs : gmap str pyobj) : M value :=
  let kwargs := force_pipes kwargs in
  let '(out_format, kwargs) := take_out_format out_format kwargs in
  log INFO (lit "Formatting output as " ++ fmt out_format);;
  cp ← call (SubprocessRun command timeout kwargs)
            (subprocess_run command timeout kwargs);
  finish_completed cp masked_cmd out_format secrets ignore_error.

(** Line 85: [mask_secrets(cmd, secrets)], called before [cmd] is
    looked at. *)
Definition mask_cmd (cmd : pyobj) (secrets : option (list str)) : M pyobj :=
  if isinstance_str cmd || isinstance_list cmd
  then ret (mask_secrets cmd secrets)
  else lift (mask_foreign cmd secrets).

(** The body of [run_command(cmd, timeout=600, out_format="string",
    secrets=None, ignore_error=False, **kwargs)], on the values that the
    call has bound to the parameters ([bind_arguments] below). *)
Definition run_command (cmd : pyobj) (timeout : Z) (out_format : pyobj)
    (secrets : option (list str)) (ignore_error : bool)
    (kwargs : gmap str pyobj) : M value :=
  masked_cmd ← mask_cmd cmd secrets;
  log INFO (lit "Executing command: " ++ fmt masked_cmd);;
  match command_of cmd with
  | Some command =>
      run_argv command masked_cmd timeout out_format secrets ignore_error kwargs
  | None => ret (VObj (OStr (lit "Error in command")))
  end.

End RunCommand.

(** The defaults of the signature. *)
Definition default_timeout : Z := 600.
Definition default_out_format : pyobj := OStr (lit "string").

(** The parameters of the signature (lines 48-50), in order. *)
Definition parameters : list str :=
  [lit "cmd"; lit "timeout"; lit "out_format"; lit "secrets";
   lit "ignore_error"].

(** What a call has bound when the body starts: the five parameters and
    [kwargs]. *)
Record bound : Type := {
  bound_cmd : pyobj;
  bound_timeout : pyobj;
  bound_out_format : pyobj;
  bound_secrets : pyobj;
  bound_ignore_error : pyobj;
  bound_kwargs : gmap str pyobj
}.

(** The value of the parameter [name], the [i]-th of the signature, in a
    call with the given positional and keyword arguments: the positional
    argument at [i], or else the keyword argument [name], or else the
    default of the signature.  [None] is the [TypeError] of a call that
    gives the parameter twice, or that leaves a parameter without
    default unset. *)
Definition bind_parameter (positional : list pyobj)
    (keywords : gmap str pyobj) (i : nat) (name : str)
    (preset : option pyobj) : option pyobj :=
  match positional !! i, keywords !! name with
  | Some _, Some _ => None
  | Some v, None => Some v
  | None, Some v => Some v
  | None, None => preset
  end.

(** A call of [run_command] with the positional arguments [positional]
    and the keyword arguments [keywords], against the signature of lines
    48-50.  [None] is the [TypeError] that ends the
    call before the body starts: more positional arguments than
    parameters, a parameter given twice, no [cmd].  [**kwargs] receives
    the keyword arguments that name no parameter. *)
Definition bind_arguments (positional : list pyobj)
    (keywords : gmap str pyobj) : option bound :=
  if decide (length positional ≤ length parameters) then
    cmd ← bind_parameter positional keywords 0 (lit "cmd") None;
    timeout ← bind_parameter positional keywords 1 (lit "timeout")
                (Some (OInt default_timeout));
    out_format ← bind_parameter positional keywords 2 (lit "out_format")
                   (Some default_out_format);
    secrets ← bind_parameter positional keywords 3 (lit "secrets")
                (Some ONone);
    ignore_error ← bind_parameter positional keywords 4 (lit "ignore_error")
                     (Some (OBool false));
    Some {| bound_cmd := cmd; bound_timeout := timeout;
            bound_out_format := out_format; bound_secrets := secrets;
            bound_ignore_error := ignore_error;
            bound_kwargs := filter (λ kv, kv.1 ∉ parameters) keywords |}
  else None.

End PerformanceLib.

(** ** The vocabulary of the statements *)

Module Terms.
Import Py Effects Collab PerformanceLib.

(** Code points that are all whitespace, or all not. *)
Definition blank (s : str) : Prop := Forall (λ c, isspace c = true) s.
Definition solid (s : str) : Prop := Forall (λ c, isspace c = false) s.

(** A text in which the words [toks] stand in order, with whitespace
    between them and possibly around them. *)
Inductive separated : str → list str → Prop :=
| separated_end (pad : str) :
    blank pad → separated pad []
| separated_word (pad w rest : str) (toks : list str) :
    blank pad → w ≠ [] → solid w → starts_word rest = false →
    separated rest toks →
    separated (pad ++ w ++ rest) (w :: toks).

(** The output format in force once [kwargs] has been looked at, and
    the options handed to [subprocess.run]. *)
Definition effective_format (out_format : pyobj) (kwargs : gmap str pyobj)
  : pyobj :=
  (take_out_format out_format (force_pipes kwargs)).1.

Definition forwarded (kwargs : gmap str pyobj) : gmap str pyobj :=
  (take_out_format ONone (force_pipes kwargs)).2.

Section WithExternals.
Context `{E : Externals}.

(** The branch that follows the exit code. *)
Definition branch cp masked_cmd out_format secrets ignore_error output err
  : M value :=
  if bool_decide (returncode cp ≠ 0%Z)
  then on_failure out_format ignore_error masked_cmd
         (mask_secrets (OStr err) secrets) cp output err
  else on_success out_format cp output.

(** The three log lines that come before the branch. *)
Definition stream_logs cp secrets output err : list event :=
  [ if (0 <? length output)%nat
    then Log DEBUG (lit "Command stdout: "
                    ++ fmt (mask_secrets (OStr output) secrets))
    else Log DEBUG (lit "Command stdout is empty");
    if (0 <? length err)%nat
    then Log WARNING (lit "Command stderr: "
                      ++ fmt (mask_secrets (OStr err) secrets))
    else Log DEBUG (lit "Command stderr is empty");
    Log DEBUG (lit "Command return code: " ++ str_of_int (returncode cp)) ].

End WithExternals.

End Terms.

(** ** Concrete runs *)

Module Scenario.
Import Py Effects Collab PerformanceLib.

(** The line feed as a byte. *)
Definition LFb : byte := x0a.

(** A world in which every child process ends with exit code [rc] and
    leaves [out] and [err] on its two streams.  The masking helper is
    the one of [Utils]; the parsers accept nothing; all texts of the
    scenarios are ASCII, for which [repr] does not consult the table of
    printable code points. *)
Definition world (rc : Z) (out err : list byte) : Externals := {|
  isprintable := λ _, true;
  mask_secrets := Utils.mask_secrets;
  mask_foreign := Utils.mask_foreign;
  subprocess_run := λ argv _ _,
    Ok {| args := argv; returncode := rc; stdout := out; stderr := err |};
  json_loads := λ _, Failed (lit "JSONDecodeError");
  yaml_safe_load := λ _, Failed (lit "YAMLError")
|}.

(** [run_command(cmd, out_format=..., secrets=..., ignore_error=...)]
    in such a world, with the default timeout and no further option. *)
Definition run (rc : Z) (out err : list byte) (cmd out_format : pyobj)
    (secrets : option (list str)) (ignore_error : bool) : M value :=
  run_command (E := world rc out err) cmd default_timeout out_format secrets
    ignore_error ∅.

End Scenario.

(** ** Further worlds *)

Module Worlds.
Import Py Effects Collab PerformanceLib.

(** A world in which [subprocess.run] raises the exception [name]
    ([TimeoutExpired], [FileNotFoundError], ...) instead of returning. *)
Definition failing (name : str) : Externals := {|
  isprintable := λ _, true;
  mask_secrets := Utils.mask_secrets;
  mask_foreign := Utils.mask_foreign;
  subprocess_run := λ _ _ _, Failed name;
  json_loads := λ _, Failed (lit "JSONDecodeError");
  yaml_safe_load := λ _, Failed (lit "YAMLError")
|}.

(** A world in which every child process ends with exit code [rc] and
    the streams [out] and [err], and in which both parsers read any text
    as the object [parsed]. *)
Definition parsing (rc : Z) (out err : list byte) (parsed : pyobj)
  : Externals := {|
  isprintable := λ _, true;
  mask_secrets := Utils.mask_secrets;
  mask_foreign := Utils.mask_foreign;
  subprocess_run := λ argv _ _,
    Ok {| args := argv; returncode := rc; stdout := out; stderr := err |};
  json_loads := λ _, Ok parsed;
  yaml_safe_load := λ _, Ok parsed
|}.

(** A world in which every child process ends with exit code [rc] and
    writes the bytes [out] and [err] of two UTF-8 texts, and in which
    [subprocess.run] hands the streams over as text when the options
    hold [text=True] and as bytes otherwise. *)
Definition text_aware (rc : Z) (out err : list byte) : Externals := {|
  isprintable := λ _, true;
  mask_secrets := Utils.mask_secrets;
  mask_foreign := Utils.mask_foreign;
  subprocess_run := λ argv _ options,
    match options !! lit "text" with
    | Some (OBool true) =>
        Ok (CapturedText {| text_args := argv; text_returncode := rc;
                            text_stdout := default [] (decode out);
                            text_stderr := default [] (decode err) |})
    | _ =>
        Ok (Captured {| args := argv; returncode := rc;
                        stdout := out; stderr := err |})
    end;
  json_loads := λ _, Failed (lit "JSONDecodeError");
  yaml_safe_load := λ _, Failed (lit "YAMLError")
|}.

End Worlds.

(** ** write_fio_on_pod *)

Module Fio.
Import Py.

(** The objects the function handles: the fio result (a dictionary read
    from fio's JSON report), the file size and the file path.  A float
    is kept as its IEEE 754 binary64 bit pattern; the keys of a
    dictionary are strings. *)
Inductive obj : Type :=
| JNone
| JBool (b : bool)
| JInt (z : Z)
| JFloat (bits : N)
| JStr (s : str)
| JList (l : list obj)
| JDict (d : gmap str obj).

(** What the function leaves behind, in order: the messages handed to
    the logger, the readings of the clock and the calls on the pod. *)
Inductive event : Type :=
| Log (lv : Effects.level) (msg : str)
| Now
| FillupFs (size : obj) (fio_filename : str)
| GetFioResults (timeout : Z)
| GetFilePath (file_name : str)
| CheckFileExistence (file_path : obj).

(** [AssertionError] of the two [assert] statements, the builtin
    exceptions of the expression that reads the error count, and
    [Foreign] for what the pod raises. *)
Inductive exn : Type :=
| AssertionError (msg : str)
| AttributeError
| TypeError
| IndexError
| KeyError
| Foreign (name : str).

Inductive outcome (A : Type) : Type :=
| Returns (a : A)
| Raises (e : exn).
Arguments Returns {A} a.
Arguments Raises {A} e.

Definition M (A : Type) : Type := (list event * outcome A)%type.

Definition events {A} (m : M A) : list event := fst m.
Definition result {A} (m : M A) : outcome A := snd m.

Definition ret {A} (a : A) : M A := ([], Returns a).
Definition raise {A} (e : exn) : M A := ([], Raises e).

Definition bind {A B} (m : M A) (k : A → M B) : M B :=
  match result m with
  | Returns a => (events m ++ events (k a), result (k a))
  | Raises e => (events m, Raises e)
  end.

#[global] Instance M_ret : MRet M := @ret.
#[global] Instance M_bind : MBind M := λ A B k m, bind m k.

Definition log (lv : Effects.level) (msg : str) : M unit :=
  ([Log lv msg], Returns tt).

(** A call of a collaborator that leaves the event [e]. *)
Definition call {A} (e : event) (r : Effects.reply A) : M A :=
  ([e], match r with
        | Effects.Ok a => Returns a
        | Effects.Failed name => Raises (Foreign name)
        end).

(** [assert cond, msg]. *)
Definition assert_ (cond : bool) (msg : str) : M unit :=
  if cond then ret tt else raise (AssertionError msg).

(** [x.get(key)]: a dictionary gives the value or [None]; nothing else
    in [obj] has the method. *)
Definition get (x : obj) (key : str) : M obj :=
  match x with
  | JDict d => ret (default JNone (d !! key))
  | _ => raise AttributeError
  end.

(** [x[0]]. *)
Definition first (x : obj) : M obj :=
  match x with
  | JList l =>
      match l with
      | y :: _ => ret y
      | [] => raise IndexError
      end
  | JStr s =>
      match s with
      | c :: _ => ret (JStr [c])
      | [] => raise IndexError
      end
  | JDict _ => raise KeyError
  | _ => raise TypeError
  end.

(** [x == 0]: the integer 0, [False] and the floats 0.0 and -0.0. *)
Definition eq_zero (x : obj) : bool :=
  match x with
  | JInt z => bool_decide (z = 0%Z)
  | JBool b => negb b
  | JFloat bits => bool_decide (N.land bits (2 ^ 63 - 1) = 0%N)
  | _ => false
  end.

(** The pod and the other collaborators, as far as the function uses
    them: [repr()] of an object; [pod_obj.name]; the methods
    [fillup_fs] and [get_fio_results] of the pod; [get_file_path] and
    [check_file_existence] of [ocs_ci.ocs.resources.pod], which answers
    with a boolean; the clock, by the number of the reading; and the
    float expression [int((later - now).total_seconds() / 60)] of line
    36, a function of the two readings. *)
Class PodWorld : Type := {
  repr_obj : obj → str;
  pod_name : str;
  fillup_fs : obj → str → Effects.reply unit;
  get_fio_results : Z → Effects.reply obj;
  get_file_path : str → Effects.reply obj;
  check_file_existence : obj → Effects.reply bool;
  datetime_now : nat → Z;
  minutes_between : Z → Z → Z
}.

Section WriteFio.
Context `{W : PodWorld}.

(** An f-string field. *)
Definition show (x : obj) : str :=
  match x with
  | JStr s => s
  | _ => repr_obj x
  end.

(** Line 32: [fio_result.get("jobs")[0].get("error")]. *)
Definition err_count_of (fio_result : obj) : M obj :=
  jobs ← get fio_result (lit "jobs");
  job ← first jobs;
  get job (lit "error").

(** Lines 33-45: the check of the error count, the log of the
    duration, the check that the file is there.  [now] and [later] are
    the first and the second reading of the clock. *)
Definition verify (file_size fio_result err_count : obj) : M unit :=
  let file_name := pod_name in
  assert_ (eq_zero err_count)
    (lit "IO error on pod " ++ pod_name ++ lit ". FIO result: "
     ++ show fio_result ++ lit ".");;
  log Effects.INFO (lit "IO on the PVC Finished");;
  call Now (Effects.Ok tt);;
  let now := datetime_now 0 in
  let later := datetime_now 1 in
  let diff := minutes_between now later in
  log Effects.INFO (lit "Writing of " ++ show file_size ++ lit " took "
                    ++ str_of_int diff ++ lit " mins");;
  file_path ← call (GetFilePath file_name) (get_file_path file_name);
  log Effects.INFO (lit "Actual file path on the pod is " ++ show file_path
                    ++ lit ".");;
  found ← call (CheckFileExistence file_path) (check_file_existence file_path);
  assert_ found (lit "File " ++ file_name ++ lit " does not exist");;
  log Effects.INFO (lit "File " ++ file_name ++ lit " exists in " ++ pod_name
                    ++ lit ".").

(** [write_fio_on_pod(pod_obj, file_size)]. *)
Definition write_fio_on_pod (file_size : obj) : M unit :=
  let file_name := pod_name in
  log Effects.INFO (lit "Starting IO on the POD " ++ pod_name);;
  call Now (Effects.Ok tt);;
  call (FillupFs file_size file_name) (fillup_fs file_size file_name);;
  fio_result ← call (GetFioResults 3600) (get_fio_results 3600);
  err_count ← err_count_of fio_result;
  verify file_size fio_result err_count.

End WriteFio.

(** The calls on the pod among the events. *)
Definition is_pod_call (e : event) : bool :=
  match e with
  | Log _ _ | Now => false
  | _ => true
  end.

Definition pod_calls {A} (m : M A) : list event := filter is_pod_call (events m).

(** A fio report with the given error counts, one job each. *)
Definition report (errors : list obj) : obj :=
  JDict {[ lit "jobs" :=
             JList ((λ e, JDict {[ lit "jobname" := JStr (lit "fio");
                                   lit "error" := e ]}) <$> errors) ]}.

(** A pod named "pod-1" on which fio ends with the report [r] and the
    file is found or not; the clock readings are 90 s apart.  The text
    of [repr()] is not worked out in this world: a placeholder stands
    for it. *)
Definition pod (r : obj) (found : bool) : PodWorld := {|
  repr_obj := λ _, lit "{...}";
  pod_name := lit "pod-1";
  fillup_fs := λ _ _, Effects.Ok tt;
  get_fio_results := λ _, Effects.Ok r;
  get_file_path := λ name, Effects.Ok (JStr (lit "/mnt/" ++ name));
  check_file_existence := λ _, Effects.Ok found;
  datetime_now := λ n, (1700000000000000 + Z.of_nat n * 90000000)%Z;
  minutes_between := λ a b, ((b - a) `quot` 60000000)%Z
|}.

End Fio.

(** * Properties *)

(** ** The builtins *)

Module PyFacts.
Import Py Terms.

(** *** [in] on strings *)

Lemma starts_with_app (p s : str) : starts_with p (p ++ s) = true.
Proof.
  induction p as [|a p IH]; simpl; [done|].
  by rewrite N.eqb_refl, IH.
Qed.

Lemma starts_with_inv (p s : str) :
  starts_with p s = true → ∃ post, s = p ++ post.
Proof.
  revert s. induction p as [|a p IH]; intros s H; simpl in *.
  - by exists s.
  - destruct s as [|b s]; [done|].
    apply andb_true_iff in H as [Hab Hps].
    apply N.eqb_eq in Hab as ->.
    destruct (IH _ Hps) as [post ->]. by exists post.
Qed.

Lemma contains_app (pre sub post : str) :
  contains sub (pre ++ sub ++ post) = true.
Proof.
  induction pre as [|c pre IH]; simpl.
  - destruct (sub ++ post) eqn:Heq; simpl;
      rewrite <- ?Heq, starts_with_app; done.
  - rewrite IH. apply orb_true_r.
Qed.

Lemma contains_inv (sub s : str) :
  contains sub s = true → ∃ pre post, s = pre ++ sub ++ post.
Proof.
  induction s as [|c s IH]; simpl; intros H.
  - rewrite orb_false_r in H.
    destruct (starts_with_inv _ _ H) as [post ->]. by exists [], post.
  - apply orb_true_iff in H as [H|H].
    + destruct (starts_with_inv _ _ H) as [post ->]. by exists [], post.
    + destruct (IH H) as (pre & post & ->). by exists (c :: pre), post.
Qed.

Lemma contains_suffix (sub pre : str) : contains sub (pre ++ sub) = true.
Proof.
  rewrite <- (app_nil_r sub) at 2. apply contains_app.
Qed.

(** *** [str.split(sep)] and [list.pop()] *)

Lemma split_on_nonempty (sep : N) (s : str) : split_on sep s ≠ [].
Proof.
  destruct s as [|c s]; simpl; [done|].
  destruct (c =? sep)%N; [done|].
  by destruct (split_on sep s).
Qed.

Lemma pop_is_Some {A} (l : list A) : l ≠ [] → is_Some (pop l).
Proof.
  intros Hl. unfold pop.
  destruct (last l) eqn:Hlast; [by eexists|].
  apply last_None in Hlast. done.
Qed.

Lemma pop_snoc {A} (l : list A) (x : A) : pop (l ++ [x]) = Some (l, x).
Proof.
  unfold pop. rewrite last_snoc.
  by rewrite removelast_app, app_nil_r by done.
Qed.

Lemma pop_inv {A} (l l' : list A) (x : A) :
  pop l = Some (l', x) → l = l' ++ [x].
Proof.
  unfold pop. destruct (last l) as [y|] eqn:Hlast; [|done].
  intros [= <- <-].
  apply last_Some in Hlast as [l'' ->].
  by rewrite removelast_app, app_nil_r by done.
Qed.

(** Splitting a text that ends with the separator: the last element is
    the empty string, the others are the pieces of the text before it. *)
Lemma split_on_snoc_sep (sep : N) (s : str) :
  split_on sep (s ++ [sep]) = split_on sep s ++ [[]].
Proof.
  induction s as [|c s IH]; simpl.
  - by rewrite N.eqb_refl.
  - rewrite IH. destruct (c =? sep)%N; [done|].
    pose proof (split_on_nonempty sep s).
    by destruct (split_on sep s).
Qed.

(** The last element of a split is empty only for the empty text and
    for a text that ends with the separator. *)
Lemma split_on_last_empty (sep : N) (s : str) :
  last (split_on sep s) = Some [] → s = [] ∨ ∃ s', s = s' ++ [sep].
Proof.
  induction s as [|c s IH]; [by left|].
  simpl. intros H. right.
  destruct (c =? sep)%N eqn:Hc.
  - apply N.eqb_eq in Hc as ->.
    pose proof (split_on_nonempty sep s) as Hne.
    destruct (split_on sep s) as [|w ws] eqn:Hs; [done|].
    rewrite last_cons_cons in H. destruct (IH H) as [->|[s' ->]].
    + by exists [].
    + by exists (sep :: s').
  - pose proof (split_on_nonempty sep s) as Hne.
    destruct (split_on sep s) as [|w ws] eqn:Hs; [done|].
    destruct ws as [|w' ws]; [done|].
    rewrite last_cons_cons in H.
    destruct IH as [->|[s' ->]]; [by rewrite last_cons_cons|done|].
    by exists (c :: s').
Qed.

(** *** [str.split()] *)

Lemma split_ws_blank (pad s : str) :
  blank pad → split_ws (pad ++ s) = split_ws s.
Proof.
  induction 1 as [|c pad Hc _ IH]; simpl; [done|]. by rewrite Hc.
Qed.

Lemma starts_word_app (w s : str) :
  w ≠ [] → solid w → starts_word (w ++ s) = true.
Proof.
  intros Hw Hs. destruct Hs as [|c w Hc _]; [done|].
  simpl. by rewrite Hc.
Qed.

(** A word followed by the end of the text or by whitespace comes out
    as one element. *)
Lemma split_ws_word (w s : str) :
  w ≠ [] → solid w → starts_word s = false →
  split_ws (w ++ s) = w :: split_ws s.
Proof.
  intros Hw Hsolid Hs.
  induction Hsolid as [|c w Hc Hsolid IH]; [done|].
  simpl. rewrite Hc.
  destruct w as [|c' w].
  - simpl. rewrite Hs. by destruct (split_ws s).
  - rewrite IH by done.
    by rewrite (starts_word_app (c' :: w)).
Qed.

(** No element of [split()] is empty or holds whitespace. *)
Lemma split_ws_solid (s : str) :
  Forall (λ w, w ≠ [] ∧ solid w) (split_ws s).
Proof.
  induction s as [|c s IH]; simpl; [constructor|].
  destruct (isspace c) eqn:Hc; [done|].
  destruct (split_ws s) as [|w ws].
  - repeat constructor; done.
  - inversion IH as [|? ? [Hw Hsol] Hws]; subst.
    destruct (starts_word s).
    + constructor; [|done]. split; [done|]. by constructor.
    + constructor; [|by constructor].
      split; [done|]. by repeat constructor.
Qed.

(** [str.split()] finds exactly these words. *)
Lemma separated_split_ws (s : str) (toks : list str) :
  separated s toks → split_ws s = toks.
Proof.
  induction 1 as [pad Hpad|pad w rest toks Hpad Hw Hsolid Hrest _ IH].
  - rewrite <- (app_nil_r pad). by rewrite split_ws_blank.
  - rewrite split_ws_blank by done.
    rewrite split_ws_word by done. by rewrite IH.
Qed.

(** More whitespace in front changes nothing. *)
Lemma separated_pad (pad s : str) (toks : list str) :
  blank pad → separated s toks → separated (pad ++ s) toks.
Proof.
  intros Hpad Hsep.
  destruct Hsep as [pad' Hpad'|pad' w rest toks Hpad' Hw Hsolid Hrest Hsep].
  - apply separated_end. by apply Forall_app.
  - rewrite (app_assoc pad pad').
    apply separated_word; try done. by apply Forall_app.
Qed.

(** Words joined by single spaces are such a text. *)
Lemma separated_join (toks : list str) :
  Forall (λ w, w ≠ [] ∧ solid w) toks → separated (join (lit " ") toks) toks.
Proof.
  induction 1 as [|w toks [Hw Hsolid] Htoks IH].
  - apply separated_end. constructor.
  - assert (blank []) as Hnil by constructor.
    destruct toks as [|w' toks].
    + pose proof (separated_word [] w [] [] Hnil Hw Hsolid eq_refl
                    (separated_end [] Hnil)) as H.
      simpl in H. by rewrite app_nil_r in H.
    + apply (separated_word [] w (lit " " ++ join (lit " ") (w' :: toks)));
        try done.
      apply separated_pad; [by repeat constructor|done].
Qed.

(** Every text is its words with whitespace around them: [separated]
    and [str.split()] say the same. *)
Lemma split_ws_separated (s : str) : separated s (split_ws s).
Proof.
  assert (blank []) as Hnil by constructor.
  induction s as [|c s IH]; simpl; [by apply separated_end|].
  destruct (isspace c) eqn:Hc.
  - apply (separated_pad [c]); [by repeat constructor|done].
  - remember (split_ws s) as toks eqn:Htoks.
    destruct IH as [pad Hpad|pad w rest toks Hpad Hw Hsolid Hrest Hsep].
    + apply (separated_word [] [c] pad []); try done.
      * by repeat constructor.
      * destruct Hpad as [|p pad Hp _]; [done|]. simpl. by rewrite Hp.
      * by apply separated_end.
    + destruct Hpad as [|p pad Hp Hpad].
      * simpl. rewrite (starts_word_app w rest) by done.
        apply (separated_word [] (c :: w) rest toks); try done.
        by constructor.
      * assert (starts_word ((p :: pad) ++ w ++ rest) = false) as Hsw
          by (simpl; by rewrite Hp).
        rewrite Hsw.
        apply (separated_word [] [c] ((p :: pad) ++ w ++ rest) (w :: toks));
          try done.
        -- by repeat constructor.
        -- apply separated_word; try done. by constructor.
Qed.

Lemma separated_iff_split_ws (s : str) (toks : list str) :
  separated s toks ↔ split_ws s = toks.
Proof.
  split; [apply separated_split_ws|].
  intros <-. apply split_ws_separated.
Qed.

(** *** [bytes.decode()] *)

(** ASCII bytes decode to themselves. *)
Lemma utf8_decode_ascii (bs : list N) :
  Forall (λ b, (b < 0x80)%N) bs → utf8_decode bs = Some bs.
Proof.
  induction 1 as [|b bs Hb _ IH]; simpl; [done|].
  apply N.ltb_lt in Hb. by rewrite Hb, IH.
Qed.

Lemma decode_nil : decode [] = Some [].
Proof. done. Qed.

End PyFacts.

(** ** Sequencing of effects *)

Module EffectFacts.
Import Py Effects.

Section Bind.
Context {A B : Type}.
Implicit Types (m : M A) (k : A → M B).

Lemma result_bind m k :
  result (m ≫= k) =
  match result m with
  | Returns a => result (k a)
  | Raises e => Raises e
  end.
Proof. unfold mbind, M_bind, bind. by destruct (result m). Qed.

Lemma events_bind m k :
  events (m ≫= k) =
  events m ++ match result m with
              | Returns a => events (k a)
              | Raises _ => []
              end.
Proof.
  unfold mbind, M_bind, bind.
  destruct (result m); simpl; [done|]. by rewrite app_nil_r.
Qed.

Lemma spawned_bind m k :
  spawned (m ≫= k) =
  spawned m ++ match result m with
               | Returns a => spawned (k a)
               | Raises _ => []
               end.
Proof.
  unfold spawned. rewrite events_bind, omap_app.
  by destruct (result m).
Qed.

Lemma logged_bind m k :
  logged (m ≫= k) =
  logged m ++ match result m with
              | Returns a => logged (k a)
              | Raises _ => []
              end.
Proof.
  unfold logged. rewrite events_bind, omap_app.
  by destruct (result m).
Qed.

End Bind.

Lemma M_eta {A} (m : M A) : m = (events m, result m).
Proof. by destruct m. Qed.

Lemma M_eq {A} (m1 m2 : M A) :
  events m1 = events m2 → result m1 = result m2 → m1 = m2.
Proof. destruct m1, m2; simpl; congruence. Qed.

End EffectFacts.

(** ** The stages of [run_command] *)

Module RunFacts.
Import Py Effects Collab PerformanceLib Terms PyFacts EffectFacts.

Implicit Types (cmd out_format masked_cmd masked_stderr : pyobj)
  (kwargs : gmap str pyobj)
  (command : list pyobj) (timeout : Z) (secrets : option (list str))
  (ignore_error : bool) (cp : CompletedProcess) (output err : str).

Lemma force_pipes_out_format (kwargs : gmap str pyobj) :
  force_pipes kwargs !! lit "out_format" = kwargs !! lit "out_format".
Proof.
  unfold force_pipes. simpl.
  by rewrite !lookup_insert_ne by (by vm_compute).
Qed.

Lemma force_pipes_delete (kwargs : gmap str pyobj) :
  delete (lit "out_format") (force_pipes kwargs)
  = force_pipes (delete (lit "out_format") kwargs).
Proof.
  unfold force_pipes. simpl.
  by rewrite !delete_insert_ne by (by vm_compute).
Qed.

Lemma effective_format_lookup out_format (kwargs : gmap str pyobj) :
  effective_format out_format kwargs
  = default out_format (kwargs !! lit "out_format").
Proof.
  unfold effective_format, take_out_format.
  rewrite force_pipes_out_format.
  by destruct (kwargs !! lit "out_format").
Qed.

Lemma forwarded_delete (kwargs : gmap str pyobj) :
  forwarded kwargs = force_pipes (delete (lit "out_format") kwargs).
Proof.
  unfold forwarded, take_out_format.
  rewrite force_pipes_out_format.
  destruct (kwargs !! lit "out_format") eqn:Hk; simpl.
  - apply force_pipes_delete.
  - by rewrite delete_id.
Qed.

Lemma forwarded_out_format (kwargs : gmap str pyobj) :
  forwarded kwargs !! lit "out_format" = None.
Proof.
  rewrite forwarded_delete, force_pipes_out_format.
  apply lookup_delete_eq.
Qed.

(** Whatever the caller put there, the three streams are pipes. *)
Lemma forwarded_pipes (kwargs : gmap str pyobj) :
  forwarded kwargs !! lit "stdout" = Some PIPE
  ∧ forwarded kwargs !! lit "stderr" = Some PIPE
  ∧ forwarded kwargs !! lit "stdin" = Some PIPE.
Proof.
  rewrite forwarded_delete. unfold force_pipes. simpl.
  repeat split.
  - by rewrite !lookup_insert_ne, lookup_insert_eq by (by vm_compute).
  - by rewrite lookup_insert_ne, lookup_insert_eq by (by vm_compute).
  - by rewrite lookup_insert_eq.
Qed.

(** The other options pass through untouched. *)
Lemma forwarded_other (kwargs : gmap str pyobj) (key : str) :
  key ∉ [lit "stdout"; lit "stderr"; lit "stdin"; lit "out_format"] →
  forwarded kwargs !! key = kwargs !! key.
Proof.
  intros Hkey. rewrite forwarded_delete. unfold force_pipes. simpl.
  rewrite !lookup_insert_ne by set_solver.
  apply lookup_delete_ne. set_solver.
Qed.

Lemma take_out_format_eq out_format (kwargs : gmap str pyobj) :
  take_out_format out_format (force_pipes kwargs)
  = (effective_format out_format kwargs, forwarded kwargs).
Proof.
  unfold effective_format, forwarded, take_out_format.
  by destruct (force_pipes kwargs !! lit "out_format").
Qed.

Section WithExternals.
Context `{E : Externals}.

(** [run_argv] with the two lets resolved. *)
Lemma run_argv_unfold command masked_cmd timeout out_format secrets
    ignore_error kwargs :
  run_argv command masked_cmd timeout out_format secrets ignore_error kwargs
  = (log INFO (lit "Formatting output as "
               ++ fmt (effective_format out_format kwargs));;
     cp ← call (SubprocessRun command timeout (forwarded kwargs))
               (subprocess_run command timeout (forwarded kwargs));
     finish_completed cp masked_cmd (effective_format out_format kwargs)
                      secrets ignore_error).
Proof. unfold run_argv. by rewrite take_out_format_eq. Qed.

Lemma split_and_pop_events (v : value) : events (split_and_pop v) = [].
Proof.
  destruct v as [[]|]; try done. simpl.
  by destruct (pop (split_on LF s)) as [[? ?]|].
Qed.

Lemma parse_with_events loads (v : value) : events (parse_with loads v) = [].
Proof.
  destruct v as [[]|]; try done. simpl.
  rewrite events_bind. simpl. by destruct (loads s).
Qed.

Lemma when_events cond f (v : value) :
  (∀ v', events (f v') = []) → events (when cond f v) = [].
Proof. intros Hf. unfold when. by destruct cond. Qed.

(** The zero branch logs nothing and runs nothing. *)
Lemma on_success_events out_format cp output :
  events (on_success out_format cp output) = [].
Proof.
  unfold on_success.
  repeat (rewrite events_bind;
          rewrite when_events
            by (intros; first [ apply split_and_pop_events
                              | apply parse_with_events | done ]);
          simpl; case_match; [|done]).
  done.
Qed.

Lemma eq_str_true (x : pyobj) (s : str) : eq_str x s = true → x = OStr s.
Proof.
  destruct x; simpl; try done.
  intros H. apply bool_decide_eq_true in H. by subst.
Qed.

(** *** The zero branch, format by format *)

Lemma on_success_exit_code cp output :
  result (on_success (OStr (lit "exit_code")) cp output)
  = Returns (VObj (OInt (returncode cp))).
Proof. done. Qed.

Lemma on_success_cpobj cp output :
  result (on_success (OStr (lit "cpobj")) cp output) = Returns (VProc cp).
Proof. done. Qed.

Lemma on_success_list cp output :
  result (on_success (OStr (lit "list")) cp output)
  = match pop (split_on LF output) with
    | Some (l, _) => Returns (VObj (OList (OStr <$> l)))
    | None => Raises IndexError
    end.
Proof.
  unfold on_success. rewrite !result_bind. simpl.
  change (eq_str (OStr (lit "list")) (lit "list")) with true. simpl.
  by destruct (pop (split_on LF output)) as [[? ?]|].
Qed.

Lemma on_success_json cp output :
  result (on_success (OStr (lit "json")) cp output)
  = match json_loads output with
    | Ok o => Returns (VObj o)
    | Failed name => Raises (Foreign name)
    end.
Proof.
  unfold on_success. rewrite !result_bind. simpl.
  change (eq_str (OStr (lit "json")) (lit "json")) with true. simpl.
  rewrite result_bind. simpl. by destruct (json_loads output).
Qed.

Lemma on_success_yaml cp output :
  result (on_success (OStr (lit "yaml")) cp output)
  = match yaml_safe_load output with
    | Ok o => Returns (VObj o)
    | Failed name => Raises (Foreign name)
    end.
Proof.
  unfold on_success. rewrite !result_bind. simpl.
  change (eq_str (OStr (lit "yaml")) (lit "yaml")) with true. simpl.
  rewrite result_bind. simpl. by destruct (yaml_safe_load output).
Qed.

(** Any other format, ["string"] among them, leaves the text as it is. *)
Lemma on_success_text out_format cp output :
  eq_str out_format (lit "exit_code") = false →
  eq_str out_format (lit "cpobj") = false →
  eq_str out_format (lit "list") = false →
  eq_str out_format (lit "json") = false →
  eq_str out_format (lit "yaml") = false →
  result (on_success out_format cp output) = Returns (VObj (OStr output)).
Proof.
  intros H1 H2 H3 H4 H5. unfold on_success.
  rewrite !result_bind, H1, H2, H3, H4, H5. done.
Qed.

(** *** The non-zero branch *)

Lemma on_failure_events out_format ignore_error masked_cmd masked_stderr
    cp output err :
  events (on_failure out_format ignore_error masked_cmd masked_stderr
            cp output err)
  = [Log ERROR (lit "Command finished with non zero ("
                ++ str_of_int (returncode cp) ++ lit "): " ++ err)].
Proof.
  unfold on_failure. rewrite events_bind. simpl.
  by destruct ignore_error, (eq_str out_format (lit "cpobj")).
Qed.

Lemma on_failure_result out_format ignore_error masked_cmd masked_stderr
    cp output err :
  result (on_failure out_format ignore_error masked_cmd masked_stderr
            cp output err)
  = if ignore_error
    then if eq_str out_format (lit "cpobj") then Returns (VProc cp)
         else Returns (VObj (OStr (output ++ annotation (returncode cp) err)))
    else Raises (CommandFailed (failure_message masked_cmd masked_stderr)).
Proof.
  unfold on_failure. rewrite result_bind. simpl.
  by destruct ignore_error, (eq_str out_format (lit "cpobj")).
Qed.

(** *** After the process has finished *)

Lemma finish_decoded cp masked_cmd out_format secrets ignore_error output err :
  decode (stdout cp) = Some output →
  decode (stderr cp) = Some err →
  finish cp masked_cmd out_format secrets ignore_error
  = (stream_logs cp secrets output err
     ++ events (branch cp masked_cmd out_format secrets ignore_error output err),
     result (branch cp masked_cmd out_format secrets ignore_error output err)).
Proof.
  intros Hout Herr. unfold finish, decode_stream, branch, stream_logs.
  rewrite Hout, Herr.
  apply M_eq.
  - repeat (rewrite events_bind; simpl).
    by destruct (0 <? length output)%nat, (0 <? length err)%nat.
  - repeat (rewrite result_bind; simpl).
    by destruct (0 <? length output)%nat, (0 <? length err)%nat.
Qed.

Lemma finish_stdout_undecodable cp masked_cmd out_format secrets ignore_error :
  decode (stdout cp) = None →
  finish cp masked_cmd out_format secrets ignore_error
  = ([], Raises UnicodeDecodeError).
Proof. intros H. unfold finish, decode_stream. by rewrite H. Qed.

Lemma finish_stderr_undecodable cp masked_cmd out_format secrets ignore_error :
  decode (stderr cp) = None →
  finish cp masked_cmd out_format secrets ignore_error
  = ([], Raises UnicodeDecodeError).
Proof.
  intros H. unfold finish, decode_stream. rewrite H.
  by destruct (decode (stdout cp)).
Qed.

Lemma branch_spawned cp masked_cmd out_format secrets ignore_error output err :
  spawned (branch cp masked_cmd out_format secrets ignore_error output err) = [].
Proof.
  unfold branch, spawned. case_bool_decide.
  - by rewrite on_failure_events.
  - by rewrite on_success_events.
Qed.

Lemma finish_spawned cp masked_cmd out_format secrets ignore_error :
  spawned (finish cp masked_cmd out_format secrets ignore_error) = [].
Proof.
  destruct (decode (stdout cp)) as [output|] eqn:Hout;
    [|by rewrite finish_stdout_undecodable].
  destruct (decode (stderr cp)) as [err|] eqn:Herr;
    [|by rewrite finish_stderr_undecodable].
  rewrite (finish_decoded _ _ _ _ _ output err) by done.
  pose proof (branch_spawned cp masked_cmd out_format secrets ignore_error
                output err) as Hb.
  unfold spawned, events in *. cbn [fst]. rewrite omap_app, Hb.
  unfold stream_logs.
  by destruct (0 <? length output)%nat, (0 <? length err)%nat.
Qed.

(** *** From the argument vector on *)

Lemma run_argv_spawned command masked_cmd timeout out_format secrets
    ignore_error kwargs :
  spawned (run_argv command masked_cmd timeout out_format secrets
             ignore_error kwargs)
  = [(command, timeout, forwarded kwargs)].
Proof.
  rewrite run_argv_unfold, !spawned_bind.
  destruct (subprocess_run command timeout (forwarded kwargs)) as [[cp|tp]|];
    simpl; [|done..].
  by rewrite finish_spawned.
Qed.

Lemma run_argv_result command masked_cmd timeout out_format secrets
    ignore_error kwargs :
  result (run_argv command masked_cmd timeout out_format secrets
            ignore_error kwargs)
  = match subprocess_run command timeout (forwarded kwargs) with
    | Ok (Captured cp) =>
        result (finish cp masked_cmd (effective_format out_format kwargs)
                  secrets ignore_error)
    | Ok (CapturedText _) => Raises AttributeError
    | Failed name => Raises (Foreign name)
    end.
Proof.
  rewrite run_argv_unfold, !result_bind.
  by destruct (subprocess_run command timeout (forwarded kwargs)) as [[cp|tp]|].
Qed.

Lemma run_argv_events command masked_cmd timeout out_format secrets
    ignore_error kwargs :
  events (run_argv command masked_cmd timeout out_format secrets
            ignore_error kwargs)
  = Log INFO (lit "Formatting output as "
              ++ fmt (effective_format out_format kwargs))
    :: SubprocessRun command timeout (forwarded kwargs)
    :: match subprocess_run command timeout (forwarded kwargs) with
       | Ok (Captured cp) =>
           events (finish cp masked_cmd (effective_format out_format kwargs)
                     secrets ignore_error)
       | _ => []
       end.
Proof.
  rewrite run_argv_unfold, !events_bind.
  by destruct (subprocess_run command timeout (forwarded kwargs)) as [[cp|tp]|].
Qed.

(** *** The whole function *)

Lemma run_command_result cmd timeout out_format secrets ignore_error kwargs :
  result (run_command cmd timeout out_format secrets ignore_error kwargs)
  = match command_of cmd with
    | Some command =>
        result (run_argv command (mask_secrets cmd secrets) timeout out_format
                  secrets ignore_error kwargs)
    | None =>
        match mask_foreign cmd secrets with
        | Ok _ => Returns (VObj (OStr (lit "Error in command")))
        | Failed name => Raises (Foreign name)
        end
    end.
Proof.
  unfold run_command, mask_cmd. rewrite !result_bind.
  destruct cmd; simpl; try done; by destruct (mask_foreign _ secrets).
Qed.

Lemma run_command_events cmd timeout out_format secrets ignore_error kwargs :
  events (run_command cmd timeout out_format secrets ignore_error kwargs)
  = match command_of cmd with
    | Some command =>
        Log INFO (lit "Executing command: " ++ fmt (mask_secrets cmd secrets))
        :: events (run_argv command (mask_secrets cmd secrets) timeout
                     out_format secrets ignore_error kwargs)
    | None =>
        match mask_foreign cmd secrets with
        | Ok masked => [Log INFO (lit "Executing command: " ++ fmt masked)]
        | Failed _ => []
        end
    end.
Proof.
  unfold run_command, mask_cmd. rewrite !events_bind.
  destruct cmd; simpl; try done; by destruct (mask_foreign _ secrets).
Qed.

Lemma run_command_spawned cmd timeout out_format secrets ignore_error kwargs :
  spawned (run_command cmd timeout out_format secrets ignore_error kwargs)
  = match command_of cmd with
    | Some command => [(command, timeout, forwarded kwargs)]
    | None => []
    end.
Proof.
  unfold spawned at 1. rewrite run_command_events.
  destruct (command_of cmd) as [command|];
    [|by destruct (mask_foreign cmd secrets)].
  apply run_argv_spawned.
Qed.

(** The result once the process has finished and both streams decode. *)
Lemma run_command_completed cmd command timeout out_format secrets
    ignore_error kwargs cp output err :
  command_of cmd = Some command →
  subprocess_run command timeout (forwarded kwargs) = Ok cp →
  decode (stdout cp) = Some output →
  decode (stderr cp) = Some err →
  result (run_command cmd timeout out_format secrets ignore_error kwargs)
  = result (branch cp (mask_secrets cmd secrets)
              (effective_format out_format kwargs) secrets ignore_error
              output err).
Proof.
  intros Hcmd Hrun Hout Herr.
  rewrite run_command_result, Hcmd, run_argv_result, Hrun.
  by rewrite (finish_decoded _ _ _ _ _ output err).
Qed.

(** *** The exceptions that can leave the function *)

(** The zero branch raises only what a parser raises: the [pop()] and
    the methods called on [output] always succeed, because at most one
    of the five formats is the one in force. *)
Lemma on_success_raises out_format cp output (e : exn) :
  result (on_success out_format cp output) = Raises e →
  ∃ name, e = Foreign name.
Proof.
  destruct (eq_str out_format (lit "exit_code")) eqn:H1;
    [apply eq_str_true in H1 as ->; by rewrite on_success_exit_code|].
  destruct (eq_str out_format (lit "cpobj")) eqn:H2;
    [apply eq_str_true in H2 as ->; by rewrite on_success_cpobj|].
  destruct (eq_str out_format (lit "list")) eqn:H3.
  { apply eq_str_true in H3 as ->. rewrite on_success_list.
    destruct (pop_is_Some _ (split_on_nonempty LF output)) as [[l x] ->].
    done. }
  destruct (eq_str out_format (lit "json")) eqn:H4.
  { apply eq_str_true in H4 as ->. rewrite on_success_json.
    destruct (json_loads output); [done|]. intros [= <-]. by eexists. }
  destruct (eq_str out_format (lit "yaml")) eqn:H5.
  { apply eq_str_true in H5 as ->. rewrite on_success_yaml.
    destruct (yaml_safe_load output); [done|]. intros [= <-]. by eexists. }
  by rewrite on_success_text.
Qed.

(** [run_command] ends with a value, with the exception of a
    collaborator, with [AttributeError] for streams captured as text,
    with [UnicodeDecodeError] for a stream that is not UTF-8, or, unless
    [ignore_error], with [CommandFailed]. *)
Lemma run_command_raises cmd timeout out_format secrets ignore_error kwargs
    (e : exn) :
  result (run_command cmd timeout out_format secrets ignore_error kwargs)
  = Raises e →
  e = UnicodeDecodeError
  ∨ e = AttributeError
  ∨ (∃ name, e = Foreign name)
  ∨ (ignore_error = false ∧ ∃ msg, e = CommandFailed msg).
Proof.
  rewrite run_command_result.
  destruct (command_of cmd) as [command|].
  2: { destruct (mask_foreign cmd secrets); [done|].
       intros [= <-]. right; right; left. by eexists. }
  rewrite run_argv_result.
  destruct (subprocess_run command timeout (forwarded kwargs))
    as [[cp|tp]|name];
    [|intros [= <-]; right; by left
     |intros [= <-]; right; right; left; by eexists].
  destruct (decode (stdout cp)) as [output|] eqn:Hout;
    [|rewrite finish_stdout_undecodable by done; intros [= <-]; by left].
  destruct (decode (stderr cp)) as [err|] eqn:Herr;
    [|rewrite finish_stderr_undecodable by done; intros [= <-]; by left].
  rewrite (finish_decoded _ _ _ _ _ output err) by done.
  unfold result at 1. cbn [snd]. unfold branch.
  case_bool_decide.
  - rewrite on_failure_result.
    destruct ignore_error;
      [by destruct (eq_str (effective_format out_format kwargs) (lit "cpobj"))|].
    intros [= <-]. right; right; right. split; [done|by eexists].
  - intros He. right; right; left. by eapply on_success_raises.
Qed.

End WithExternals.

End RunFacts.

(** ** The command runner *)

Import Py Effects Collab PerformanceLib Terms PyFacts EffectFacts RunFacts.

Implicit Types (cmd out_format : pyobj) (kwargs : gmap str pyobj)
  (command : list pyobj) (timeout : Z) (secrets : option (list str))
  (ignore_error : bool) (cp : CompletedProcess) (output err : str).

(** *** Input that is neither a string nor a list *)



(** *** The output format given by keyword *)

(** A call binds each parameter once. *)
Lemma bind_parameter_twice positional keywords i name preset :
  is_Some (positional !! i) → is_Some (keywords !! name) →
  bind_parameter positional keywords i name preset = None.
Proof. intros [x Hx] [y Hy]. unfold bind_parameter. by rewrite Hx, Hy. Qed.

Lemma bind_parameter_keyword positional keywords i name preset (v w : pyobj) :
  keywords !! name = Some v →
  bind_parameter positional keywords i name preset = Some w →
  w = v ∧ positional !! i = None.
Proof.
  intros Hk. unfold bind_parameter. rewrite Hk.
  destruct (positional !! i); [done|]. by intros [= ->].
Qed.

(** What the body finds in the parameters and in [kwargs] after a call
    that binds. *)
Lemma bind_arguments_Some positional keywords (b : bound) :
  bind_arguments positional keywords = Some b →
  length positional ≤ 5
  ∧ bind_parameter positional keywords 0 (lit "cmd") None
    = Some (bound_cmd b)
  ∧ bind_parameter positional keywords 1 (lit "timeout")
      (Some (OInt default_timeout)) = Some (bound_timeout b)
  ∧ bind_parameter positional keywords 2 (lit "out_format")
      (Some default_out_format) = Some (bound_out_format b)
  ∧ bind_parameter positional keywords 3 (lit "secrets") (Some ONone)
    = Some (bound_secrets b)
  ∧ bind_parameter positional keywords 4 (lit "ignore_error")
      (Some (OBool false)) = Some (bound_ignore_error b)
  ∧ bound_kwargs b = filter (λ kv, kv.1 ∉ parameters) keywords.
Proof.
  unfold bind_arguments. case_decide as Hlen; [|done].
  destruct (bind_parameter positional keywords 0 _ _) as [c|]; [|done].
  destruct (bind_parameter positional keywords 1 _ _) as [t|]; [|done].
  destruct (bind_parameter positional keywords 2 _ _) as [o|]; [|done].
  destruct (bind_parameter positional keywords 3 _ _) as [x|]; [|done].
  destruct (bind_parameter positional keywords 4 _ _) as [i|]; [|done].
  simpl. by intros [= <-].
Qed.

(** [kwargs] never holds the name of a parameter. *)
Lemma bound_kwargs_parameter positional keywords (b : bound) (name : str) :
  bind_arguments positional keywords = Some b →
  name ∈ parameters →
  bound_kwargs b !! name = None.
Proof.
  intros Hb Hname.
  apply bind_arguments_Some in Hb as (_ & _ & _ & _ & _ & _ & ->).
  apply map_lookup_filter_None. right. intros v _ Hnot. by apply Hnot.
Qed.

(** C6.  A keyword argument named out_format never reaches [kwargs]: it
    binds the parameter [out_format].  So in every call that gives it
    and gets as far as the body, its value is the parameter's value and
    the output format in force, [kwargs] holds no "out_format" (the test
    of line 97 fails), the line "Formatting output as ..." shows the
    value, and the options handed to [subprocess.run] hold no
    "out_format".  A call that gives the format both by position and by
    keyword ends in [TypeError] before the body starts; a call that
    gives it by keyword only, with [cmd] and at most a timeout by
    position, does bind. *)
Theorem out_format_keyword_binds_parameter `{E : Externals}
    positional keywords (v : pyobj) :
  keywords !! lit "out_format" = Some v →
  (is_Some (positional !! 2) → bind_arguments positional keywords = None)
  ∧ (1 ≤ length positional ≤ 2 →
     (∀ name, name ∈ [lit "cmd"; lit "timeout"] → keywords !! name = None) →
     is_Some (bind_arguments positional keywords))
  ∧ (∀ b : bound, bind_arguments positional keywords = Some b →
       bound_out_format b = v
       ∧ bound_kwargs b !! lit "out_format" = None
       ∧ effective_format (bound_out_format b) (bound_kwargs b) = v
       ∧ ∀ timeout secrets ignore_error,
           let run := run_command (bound_cmd b) timeout (bound_out_format b)
                        secrets ignore_error (bound_kwargs b) in
           (∀ argv t options,
              (argv, t, options) ∈ spawned run →
              options !! lit "out_format" = None)
           ∧ (isinstance_str (bound_cmd b) || isinstance_list (bound_cmd b)
              = true →
              Log INFO (lit "Formatting output as " ++ fmt v) ∈ events run)).
Proof.
  intros Hkey. split; [|split].
  - intros Hpos. unfold bind_arguments. case_decide; [|done].
    rewrite (bind_parameter_twice _ _ 2 (lit "out_format")) by (done || by eexists).
    by destruct (bind_parameter positional keywords 0 _ _),
               (bind_parameter positional keywords 1 _ _).
  - intros [Hlo Hhi] Hfree.
    destruct positional as [|c [|t [|? ?]]]; simpl in *; try lia.
    + unfold bind_arguments. rewrite decide_True by (simpl; lia).
      unfold bind_parameter. simpl.
      rewrite (Hfree (lit "cmd")), (Hfree (lit "timeout")), Hkey by set_solver.
      destruct (keywords !! lit "secrets"),
        (keywords !! lit "ignore_error"); by eexists.
    + unfold bind_arguments. rewrite decide_True by (simpl; lia).
      unfold bind_parameter. simpl.
      rewrite (Hfree (lit "cmd")), (Hfree (lit "timeout")), Hkey by set_solver.
      destruct (keywords !! lit "secrets"),
        (keywords !! lit "ignore_error"); by eexists.
  - intros b Hb.
    assert (bound_kwargs b !! lit "out_format" = None) as Hnone.
    { eapply bound_kwargs_parameter; [done|]. unfold parameters. set_solver. }
    pose proof Hb as (_ & _ & _ & Ho & _)%bind_arguments_Some.
    apply (bind_parameter_keyword _ _ _ _ _ v) in Ho as [Hv _]; [|done].
    assert (effective_format (bound_out_format b) (bound_kwargs b) = v) as Heff.
    { by rewrite effective_format_lookup, Hnone. }
    repeat split; [done..| |].
    + intros argv t options. rewrite run_command_spawned.
      destruct (command_of (bound_cmd b)); [|by intros ?%elem_of_nil].
      intros [= -> -> ->]%list_elem_of_singleton.
      apply forwarded_out_format.
    + intros Hcmd. rewrite run_command_events.
      destruct (command_of (bound_cmd b)) as [command|] eqn:Hc;
        [|by destruct (bound_cmd b)].
      rewrite run_argv_events, Heff. set_solver.
Qed.

Lemma out_format_keyword_binds_parameter_witness :
  let keywords : gmap str pyobj := {[ lit "out_format" := OStr (lit "list") ]} in
  let E := Scenario.world 0 (blit "a") [] in
  bind_arguments [OStr (lit "echo a")] keywords
  = Some {| bound_cmd := OStr (lit "echo a");
            bound_timeout := OInt 600;
            bound_out_format := OStr (lit "list");
            bound_secrets := ONone;
            bound_ignore_error := OBool false;
            bound_kwargs := ∅ |}
  ∧ result (run_command (OStr (lit "echo a")) 600 (OStr (lit "list")) None
              false ∅)
    = Returns (VObj (OList []))
  ∧ Log INFO (lit "Formatting output as list")
    ∈ events (run_command (OStr (lit "echo a")) 600 (OStr (lit "list")) None
                false ∅).
Proof.
  intros keywords E.
  assert (bind_arguments [OStr (lit "echo a")] keywords
          = Some {| bound_cmd := OStr (lit "echo a");
                    bound_timeout := OInt 600;
                    bound_out_format := OStr (lit "list");
                    bound_secrets := ONone;
                    bound_ignore_error := OBool false;
                    bound_kwargs := ∅ |}) as Hb by (by vm_compute).
  split; [exact Hb|]. split; [reflexivity|].
  pose proof (out_format_keyword_binds_parameter (E := E)
                [OStr (lit "echo a")] keywords (OStr (lit "list")) eq_refl)
    as (_ & _ & Hrun).
  destruct (Hrun _ Hb) as (_ & _ & _ & Hbody).
  destruct (Hbody 600%Z None false) as [_ Hlog].
  exact (Hlog eq_refl).
Defined.

(** C6, as stated, fails.  The format given both by position and by
    keyword: the call [run_command("ls", 600, "json", out_format="list")]
    ends in [TypeError] and nothing is formatted; and no call at all
    leaves an "out_format" in [kwargs] for lines 97-99 to find. *)
Lemma out_format_given_twice_is_rejected :
  bind_arguments [OStr (lit "ls"); OInt 600; OStr (lit "json")]
    {[ lit "out_format" := OStr (lit "list") ]} = None
  ∧ ∀ positional keywords (b : bound),
      bind_arguments positional keywords = Some b →
      bound_kwargs b !! lit "out_format" = None.
Proof.
  split; [by vm_compute|].
  intros positional keywords b Hb.
  eapply bound_kwargs_parameter; [done|]. unfold parameters. set_solver.
Qed.

(** *** The text format *)

(** C8.  With the format "string" and exit code 0 the string that
    [run_command] returns is the decoded standard output itself,
    whatever the secrets and whatever the masking helper does with them:
    masking feeds the log lines only, and no annotation is appended.
    The function returns as soon as the standard error decodes too. *)
Theorem string_format_returns_raw_stdout `{E : Externals}
    cmd command timeout out_format secrets ignore_error kwargs cp output :
  command_of cmd = Some command →
  subprocess_run command timeout (forwarded kwargs) = Ok cp →
  returncode cp = 0%Z →
  decode (stdout cp) = Some output →
  effective_format out_format kwargs = OStr (lit "string") →
  let r := result (run_command cmd timeout out_format secrets ignore_error
                     kwargs) in
  (∀ v, r = Returns v → v = VObj (OStr output))
  ∧ (∀ err, decode (stderr cp) = Some err → r = Returns (VObj (OStr output))).
Proof.
  intros Hcmd Hrun Hrc Hout Hfmt r.
  assert (∀ err, decode (stderr cp) = Some err →
                 r = Returns (VObj (OStr output))) as Hret.
  { intros err Herr. subst r.
    rewrite (run_command_completed _ _ _ _ _ _ _ _ _ _ Hcmd Hrun Hout Herr).
    unfold branch. rewrite Hrc, Hfmt.
    rewrite bool_decide_eq_false_2 by (by intros []).
    by apply on_success_text. }
  split; [|done].
  intros v Hv. destruct (decode (stderr cp)) as [err|] eqn:Herr.
  - rewrite (Hret err eq_refl) in Hv. by injection Hv as <-.
  - subst r. rewrite run_command_result, Hcmd, run_argv_result, Hrun in Hv.
    by rewrite finish_stderr_undecodable in Hv.
Qed.

(** The standard output holds the secret and comes back unmasked. *)
Lemma string_format_returns_raw_stdout_witness :
  result (Scenario.run 0 (blit "token=hunter2") [] (OStr (lit "vault read"))
            (OStr (lit "string")) (Some [lit "hunter2"]) false)
  = Returns (VObj (OStr (lit "token=hunter2"))).
Proof.
  refine (proj2 (string_format_returns_raw_stdout
                   (E := Scenario.world 0 (blit "token=hunter2") [])
                   (OStr (lit "vault read"))
                   [OStr (lit "vault"); OStr (lit "read")]
                   default_timeout (OStr (lit "string"))
                   (Some [lit "hunter2"]) false ∅
                   {| args := [OStr (lit "vault"); OStr (lit "read")];
                      returncode := 0; stdout := blit "token=hunter2";
                      stderr := [] |}
                   (lit "token=hunter2") _ _ _ _ _) [] _);
    reflexivity.
Defined.

(** *** The exit-code format *)

(** C9.  Under the format "exit_code" an integer that [run_command]
    returns is 0, and it is returned only after a process that ended
    with exit code 0.  Such a process, once its streams decode, does
    make the function return 0; after a non-zero exit code the function
    raises [CommandFailed] or, with [ignore_error], returns the text with
    the annotation, not the exit code. *)
Theorem exit_code_format_returns_zero `{E : Externals}
    cmd timeout out_format secrets ignore_error kwargs :
  effective_format out_format kwargs = OStr (lit "exit_code") →
  let r := result (run_command cmd timeout out_format secrets ignore_error
                     kwargs) in
  (∀ z, r = Returns (VObj (OInt z)) →
     z = 0%Z
     ∧ ∃ command cp, command_of cmd = Some command
         ∧ subprocess_run command timeout (forwarded kwargs) = Ok cp
         ∧ returncode cp = 0%Z)
  ∧ (∀ command cp output err,
       command_of cmd = Some command →
       subprocess_run command timeout (forwarded kwargs) = Ok cp →
       decode (stdout cp) = Some output →
       decode (stderr cp) = Some err →
       if bool_decide (returncode cp = 0%Z)
       then r = Returns (VObj (OInt 0))
       else if ignore_error
       then r = Returns (VObj (OStr (output ++ annotation (returncode cp) err)))
       else ∃ msg, r = Raises (CommandFailed msg)).
Proof.
  intros Hfmt r. subst r. split.
  - intros z. rewrite run_command_result.
    destruct (command_of cmd) as [command|] eqn:Hcmd;
      [|by destruct (mask_foreign cmd secrets)].
    rewrite run_argv_result.
    destruct (subprocess_run command timeout (forwarded kwargs))
      as [[cp|tp]|] eqn:Hrun; [|done..].
    destruct (decode (stdout cp)) as [output|] eqn:Hout;
      [|by rewrite finish_stdout_undecodable].
    destruct (decode (stderr cp)) as [err|] eqn:Herr;
      [|by rewrite finish_stderr_undecodable].
    rewrite (finish_decoded _ _ _ _ _ output err) by done.
    unfold branch, result at 1. cbn [snd]. rewrite Hfmt.
    case_bool_decide as Hrc.
    + rewrite on_failure_result. by destruct ignore_error.
    + rewrite on_success_exit_code. intros [= <-].
      assert (returncode cp = 0%Z) as Hz by (by destruct (decide (returncode cp = 0%Z))).
      split; [done|]. by exists command, cp.
  - intros command cp output err Hcmd Hrun Hout Herr.
    rewrite (run_command_completed _ _ _ _ _ _ _ _ _ _ Hcmd Hrun Hout Herr).
    unfold branch. rewrite Hfmt.
    case_bool_decide as Hrc.
    + rewrite bool_decide_eq_false_2 by (by intros []).
      by rewrite on_success_exit_code, Hrc.
    + rewrite bool_decide_eq_true_2 by done.
      rewrite on_failure_result. destruct ignore_error; [done|by eexists].
Qed.

Lemma exit_code_format_returns_zero_witness :
  let r := result (Scenario.run 0 (blit "out") [] (OStr (lit "true"))
                     (OStr (lit "exit_code")) None true) in
  (∀ z, r = Returns (VObj (OInt z)) →
     z = 0%Z
     ∧ ∃ command cp, command_of (OStr (lit "true")) = Some command
         ∧ subprocess_run (Externals := Scenario.world 0 (blit "out") [])
             command default_timeout (forwarded ∅) = Ok cp
         ∧ returncode cp = 0%Z)
  ∧ (∀ command cp output err,
       command_of (OStr (lit "true")) = Some command →
       subprocess_run (Externals := Scenario.world 0 (blit "out") [])
         command default_timeout (forwarded ∅) = Ok cp →
       decode (stdout cp) = Some output →
       decode (stderr cp) = Some err →
       if bool_decide (returncode cp = 0%Z)
       then r = Returns (VObj (OInt 0))
       else if true
       then r = Returns (VObj (OStr (output ++ annotation (returncode cp) err)))
       else ∃ msg, r = Raises (CommandFailed msg)).
Proof.
  apply (exit_code_format_returns_zero
           (E := Scenario.world 0 (blit "out") [])
           (OStr (lit "true")) default_timeout (OStr (lit "exit_code")) None
           true ∅).
  reflexivity.
Defined.

(** *** The list format on an empty output *)

(** C10.  The [pop()] of the "list" format cannot fail: a split on the
    line feed has at least one element, whatever the text, so no call of
    [run_command] ends with the [IndexError] of an empty list.  After a
    process that ended with exit code 0 and wrote nothing to its standard
    output, the format "list" returns the empty list (the standard error
    is taken to decode, as the function decodes it first). *)
Theorem list_format_pop_never_fails `{E : Externals}
    cmd timeout out_format secrets ignore_error kwargs :
  (∀ s : str, split_on LF s ≠ [] ∧ is_Some (pop (split_on LF s)))
  ∧ split_on LF [] = [[]]
  ∧ result (run_command cmd timeout out_format secrets ignore_error kwargs)
    ≠ Raises IndexError
  ∧ (∀ command cp err,
       command_of cmd = Some command →
       subprocess_run command timeout (forwarded kwargs) = Ok cp →
       returncode cp = 0%Z →
       stdout cp = [] →
       decode (stderr cp) = Some err →
       effective_format out_format kwargs = OStr (lit "list") →
       result (run_command cmd timeout out_format secrets ignore_error kwargs)
       = Returns (VObj (OList []))).
Proof.
  split; [|split; [done|split]].
  - intros s. pose proof (split_on_nonempty LF s). split; [done|].
    by apply pop_is_Some.
  - intros Hraise.
    destruct (run_command_raises _ _ _ _ _ _ _ Hraise)
      as [?|[?|[[? ?]|[_ [? ?]]]]]; done.
  - intros command cp err Hcmd Hrun Hrc Hout Herr Hfmt.
    assert (decode (stdout cp) = Some []) as Hdec by (by rewrite Hout).
    rewrite (run_command_completed _ _ _ _ _ _ _ _ _ _ Hcmd Hrun Hdec Herr).
    unfold branch. rewrite Hrc, Hfmt.
    rewrite bool_decide_eq_false_2 by (by intros []).
    by rewrite on_success_list.
Qed.

Lemma list_format_pop_never_fails_witness :
  let r := Scenario.run 0 [] (blit "warning: nothing to do") (OStr (lit "true"))
             (OStr (lit "list")) None false in
  result r ≠ Raises IndexError ∧ result r = Returns (VObj (OList [])).
Proof.
  intros r.
  destruct (list_format_pop_never_fails
              (E := Scenario.world 0 [] (blit "warning: nothing to do"))
              (OStr (lit "true")) default_timeout (OStr (lit "list")) None
              false ∅) as (_ & _ & Hsafe & Hempty).
  split; [exact Hsafe|].
  refine (Hempty [OStr (lit "true")]
            {| args := [OStr (lit "true")]; returncode := 0; stdout := [];
               stderr := blit "warning: nothing to do" |}
            (lit "warning: nothing to do") _ _ _ _ _ _);
    reflexivity.
Defined.

(** *** A non-zero exit code *)

(** C1, as the code has it.  With [ignore_error] false and a command
    that is a string or a list, the call ends as [subprocess.run] and
    the two streams have it.  When [subprocess.run] raises
    ([TimeoutExpired], or [CalledProcessError] for the non-zero exit
    code when the options hold [check=True]), that exception leaves the
    function.  When it returns the process with the streams as text (a
    text-mode option was among the options), line 103 raises
    [AttributeError].  When it returns the process with the streams as
    bytes and a non-zero exit code, the function raises
    [UnicodeDecodeError] if a stream is not valid UTF-8 and otherwise
    [CommandFailed], with a message that holds the masked command and
    the masked standard error, as an f-string prints them. *)
Theorem failure_raises_CommandFailed `{E : Externals}
    cmd command timeout out_format secrets kwargs :
  command_of cmd = Some command →
  let r := result (run_command cmd timeout out_format secrets false kwargs) in
  match subprocess_run command timeout (forwarded kwargs) with
  | Failed name => r = Raises (Foreign name)
  | Ok (CapturedText _) => r = Raises AttributeError
  | Ok (Captured cp) =>
      returncode cp ≠ 0%Z →
      match decode (stdout cp), decode (stderr cp) with
      | Some output, Some err =>
          ∃ msg, r = Raises (CommandFailed msg)
                 ∧ contains (fmt (mask_secrets cmd secrets)) msg = true
                 ∧ contains (fmt (mask_secrets (OStr err) secrets)) msg = true
      | _, _ => r = Raises UnicodeDecodeError
      end
  end.
Proof.
  intros Hcmd r. subst r.
  destruct (subprocess_run command timeout (forwarded kwargs))
    as [[cp|tp]|name] eqn:Hrun.
  2, 3: by rewrite run_command_result, Hcmd, run_argv_result, Hrun.
  intros Hrc.
  destruct (decode (stdout cp)) as [output|] eqn:Hout.
  2: { rewrite run_command_result, Hcmd, run_argv_result, Hrun.
       by rewrite finish_stdout_undecodable. }
  destruct (decode (stderr cp)) as [err|] eqn:Herr.
  2: { rewrite run_command_result, Hcmd, run_argv_result, Hrun.
       by rewrite finish_stderr_undecodable. }
  eexists. split; [|split].
  - rewrite (run_command_completed _ _ _ _ _ _ _ _ _ _ Hcmd Hrun Hout Herr).
    unfold branch. rewrite bool_decide_eq_true_2 by done.
    by rewrite on_failure_result.
  - unfold failure_message. apply contains_app.
  - unfold failure_message. rewrite !app_assoc. apply contains_suffix.
Qed.

Lemma failure_raises_CommandFailed_witness :
  ∃ msg,
    result (Scenario.run 1 (blit "out") (blit "boom hunter2")
              (OStr (lit "login --password hunter2")) default_out_format
              (Some [lit "hunter2"]) false)
    = Raises (CommandFailed msg)
    ∧ contains (lit "login --password *****") msg = true
    ∧ contains (lit "boom *****") msg = true.
Proof.
  refine (failure_raises_CommandFailed
            (E := Scenario.world 1 (blit "out") (blit "boom hunter2"))
            (OStr (lit "login --password hunter2"))
            [OStr (lit "login"); OStr (lit "--password"); OStr (lit "hunter2")]
            default_timeout default_out_format (Some [lit "hunter2"]) ∅ _ _);
    first [ reflexivity | discriminate ].
Defined.

(** C1, as stated, fails: a process that ends with exit code 1 after
    writing the byte 0xFF to its standard output makes [run_command]
    raise [UnicodeDecodeError] at [cp.stdout.decode()], not
    [CommandFailed]. *)
Lemma failure_with_undecodable_stdout :
  let E := Scenario.world 1 [xff] (blit "boom") in
  let cmd := OList [OStr (lit "sh"); OStr (lit "-c");
                    OStr (lit "printf '\377'; echo boom >&2; exit 1")] in
  (∃ command cp,
     command_of cmd = Some command
     ∧ subprocess_run command default_timeout (forwarded ∅) = Ok cp
     ∧ returncode cp ≠ 0%Z)
  ∧ result (run_command cmd default_timeout default_out_format None false ∅)
    = Raises UnicodeDecodeError
  ∧ ∀ msg, result (run_command cmd default_timeout default_out_format None
                     false ∅)
           ≠ Raises (CommandFailed msg).
Proof.
  intros E cmd. split; [|split].
  - eexists _, _. split; [reflexivity|]. split; [reflexivity|]. discriminate.
  - reflexivity.
  - intros msg. discriminate.
Qed.

(** C3, as the code has it.  With [ignore_error] true and a command
    that is a string or a list, [CommandFailed] is not raised, and the
    call ends as [subprocess.run] and the two streams have it.  When
    [subprocess.run] raises ([TimeoutExpired], or [CalledProcessError]
    for the non-zero exit code when the options hold [check=True]), that
    exception leaves the function all the same.  When it returns the
    process with the streams as text, line 103 raises [AttributeError].
    When it returns the process with the streams as bytes and a non-zero
    exit code, the function raises [UnicodeDecodeError] if a stream is
    not valid UTF-8 and nothing otherwise: with the format "cpobj" it
    then returns the [CompletedProcess], with any other format the
    decoded standard output followed by the annotation, which holds the
    exit code and the unmasked standard error. *)
Theorem ignored_failure_returns `{E : Externals}
    cmd command timeout out_format secrets kwargs :
  command_of cmd = Some command →
  let r := result (run_command cmd timeout out_format secrets true kwargs) in
  (∀ msg, r ≠ Raises (CommandFailed msg))
  ∧ match subprocess_run command timeout (forwarded kwargs) with
    | Failed name => r = Raises (Foreign name)
    | Ok (CapturedText _) => r = Raises AttributeError
    | Ok (Captured cp) =>
        returncode cp ≠ 0%Z →
        match decode (stdout cp), decode (stderr cp) with
        | Some output, Some err =>
            r = Returns
                  (if eq_str (effective_format out_format kwargs) (lit "cpobj")
                   then VProc cp
                   else VObj (OStr (output
                                    ++ annotation (returncode cp) err)))
            ∧ contains (str_of_int (returncode cp))
                (annotation (returncode cp) err) = true
            ∧ contains err (annotation (returncode cp) err) = true
        | _, _ => r = Raises UnicodeDecodeError
        end
    end.
Proof.
  intros Hcmd r. subst r. split.
  { intros msg Hraise.
    by destruct (run_command_raises _ _ _ _ _ _ _ Hraise)
      as [?|[?|[[? ?]|[? _]]]]. }
  destruct (subprocess_run command timeout (forwarded kwargs))
    as [[cp|tp]|name] eqn:Hrun.
  2, 3: by rewrite run_command_result, Hcmd, run_argv_result, Hrun.
  intros Hrc.
  destruct (decode (stdout cp)) as [output|] eqn:Hout.
  2: { rewrite run_command_result, Hcmd, run_argv_result, Hrun.
       by rewrite finish_stdout_undecodable. }
  destruct (decode (stderr cp)) as [err|] eqn:Herr.
  2: { rewrite run_command_result, Hcmd, run_argv_result, Hrun.
       by rewrite finish_stderr_undecodable. }
  split; [|split].
  - rewrite (run_command_completed _ _ _ _ _ _ _ _ _ _ Hcmd Hrun Hout Herr).
    unfold branch. rewrite bool_decide_eq_true_2 by done.
    rewrite on_failure_result.
    by destruct (eq_str (effective_format out_format kwargs) (lit "cpobj")).
  - unfold annotation. apply contains_app.
  - unfold annotation. rewrite !app_assoc. apply contains_suffix.
Qed.

Lemma ignored_failure_returns_witness :
  result (Scenario.run 1 (blit "partial ") (blit "boom") (OStr (lit "make all"))
            default_out_format None true)
  = Returns (VObj (OStr (lit "partial Error in command (1): boom")))
  ∧ contains (lit "1") (lit "Error in command (1): boom") = true
  ∧ contains (lit "boom") (lit "Error in command (1): boom") = true.
Proof.
  refine (proj2 (ignored_failure_returns
                   (E := Scenario.world 1 (blit "partial ") (blit "boom"))
                   (OStr (lit "make all")) [OStr (lit "make"); OStr (lit "all")]
                   default_timeout default_out_format None ∅ _) _);
    first [ reflexivity | discriminate ].
Defined.

(** C3, as stated, fails: with [ignore_error] true, a process that ends
    with exit code 1 after writing the byte 0xFF to its standard error
    makes [run_command] raise [UnicodeDecodeError] at
    [cp.stderr.decode()]. *)
Lemma ignored_failure_with_undecodable_stderr :
  let E := Scenario.world 1 (blit "out") [xff] in
  let cmd := OList [OStr (lit "sh"); OStr (lit "-c");
                    OStr (lit "echo out; printf '\377' >&2; exit 1")] in
  (∃ command cp,
     command_of cmd = Some command
     ∧ subprocess_run command default_timeout (forwarded ∅) = Ok cp
     ∧ returncode cp ≠ 0%Z)
  ∧ result (run_command cmd default_timeout default_out_format None true ∅)
    = Raises UnicodeDecodeError.
Proof.
  intros E cmd. split.
  - eexists _, _. split; [reflexivity|]. split; [reflexivity|]. discriminate.
  - reflexivity.
Qed.

(** *** A command given as a string or as a list *)

(** C7, as the code has it.  A command given as one string, its words
    separated by whitespace, makes [run_command] call [subprocess.run]
    with the same argument vector, timeout and options as the list of
    these words does.  The two calls then end alike: they return the
    same value or raise the same exception, except that a
    [CommandFailed] quotes in its message the masked command in the form
    it was given in, the string or the list. *)
Theorem string_and_list_command_run_alike `{E : Externals}
    (s : str) (toks : list str) timeout out_format secrets ignore_error kwargs :
  separated s toks →
  let by_str :=
    run_command (OStr s) timeout out_format secrets ignore_error kwargs in
  let by_list :=
    run_command (OList (OStr <$> toks)) timeout out_format secrets ignore_error
      kwargs in
  spawned by_str = [(OStr <$> toks, timeout, forwarded kwargs)]
  ∧ spawned by_list = [(OStr <$> toks, timeout, forwarded kwargs)]
  ∧ (result by_str = result by_list
     ∨ ∃ masked_stderr,
         result by_str
         = Raises (CommandFailed
                     (failure_message (mask_secrets (OStr s) secrets)
                        masked_stderr))
         ∧ result by_list
           = Raises (CommandFailed
                       (failure_message
                          (mask_secrets (OList (OStr <$> toks)) secrets)
                          masked_stderr))).
Proof.
  intros Hsep by_str by_list. subst by_str by_list.
  assert (command_of (OStr s) = Some (OStr <$> toks)) as Hstr
    by (simpl; by rewrite (separated_split_ws s toks)).
  assert (command_of (OList (OStr <$> toks)) = Some (OStr <$> toks)) as Hlist
    by done.
  split; [|split].
  - by rewrite run_command_spawned, Hstr.
  - by rewrite run_command_spawned, Hlist.
  - rewrite !run_command_result, Hstr, Hlist, !run_argv_result.
    destruct (subprocess_run (OStr <$> toks) timeout (forwarded kwargs))
      as [[cp|tp]|]; [|by left..].
    destruct (decode (stdout cp)) as [output|] eqn:Hout;
      [|left; by rewrite !finish_stdout_undecodable].
    destruct (decode (stderr cp)) as [err|] eqn:Herr;
      [|left; by rewrite !finish_stderr_undecodable].
    rewrite !(finish_decoded _ _ _ _ _ output err) by done.
    unfold result at 1 2 3 4. cbn [snd]. unfold branch.
    case_bool_decide; [|by left].
    rewrite !on_failure_result.
    destruct ignore_error; [by left|].
    right. by eexists.
Qed.

Lemma string_and_list_command_run_alike_witness :
  let E := Scenario.world 0 (blit "hi") [] in
  let by_str :=
    run_command (OStr (lit "  echo   hi ")) 600 default_out_format None false ∅ in
  let by_list :=
    run_command (OList (OStr <$> [lit "echo"; lit "hi"])) 600 default_out_format
      None false ∅ in
  spawned by_str = [(OStr <$> [lit "echo"; lit "hi"], 600%Z, forwarded ∅)]
  ∧ spawned by_list = [(OStr <$> [lit "echo"; lit "hi"], 600%Z, forwarded ∅)]
  ∧ (result by_str = result by_list
     ∨ ∃ masked_stderr,
         result by_str
         = Raises (CommandFailed
                     (failure_message (mask_secrets (OStr (lit "  echo   hi ")) None)
                        masked_stderr))
         ∧ result by_list
           = Raises (CommandFailed
                       (failure_message
                          (mask_secrets (OList (OStr <$> [lit "echo"; lit "hi"]))
                             None)
                          masked_stderr))).
Proof.
  refine (string_and_list_command_run_alike
            (E := Scenario.world 0 (blit "hi") [])
            (lit "  echo   hi ") [lit "echo"; lit "hi"] 600 default_out_format
            None false ∅ _).
  refine (separated_word (lit "  ") (lit "echo") (lit "   hi ") [lit "hi"]
            _ _ _ _ _); [by repeat constructor|done|by repeat constructor|done|].
  refine (separated_word (lit "   ") (lit "hi") (lit " ") [] _ _ _ _ _);
    [by repeat constructor|done|by repeat constructor|done|].
  apply separated_end. by repeat constructor.
Defined.

(** C7, as stated, fails on the result: when the process ends with a
    non-zero exit code, the command "echo hi" and the list of its two
    words call [subprocess.run] alike, and raise [CommandFailed] with
    different messages. *)
Lemma string_and_list_command_fail_differently :
  let E := Scenario.world 1 [] (blit "boom") in
  let by_str :=
    run_command (OStr (lit "echo hi")) 600 default_out_format None false ∅ in
  let by_list :=
    run_command (OList [OStr (lit "echo"); OStr (lit "hi")]) 600
      default_out_format None false ∅ in
  spawned by_str = spawned by_list
  ∧ result by_str
    = Raises (CommandFailed
                (lit "Error during execution of command: echo hi."
                 ++ [LF] ++ lit "Error is boom"))
  ∧ result by_list
    = Raises (CommandFailed
                (lit "Error during execution of command: ['echo', 'hi']."
                 ++ [LF] ++ lit "Error is boom"))
  ∧ result by_str ≠ result by_list.
Proof.
  intros E by_str by_list.
  split; [reflexivity|]. split; [reflexivity|]. split; [reflexivity|].
  discriminate.
Qed.

(** *** What reaches the logger *)

(** After a non-zero exit code the last message handed to the logger,
    at level [ERROR], ends with the standard error as decoded: the
    masking helper has no part in it. *)
Lemma error_log_has_raw_stderr `{E : Externals}
    cmd command timeout out_format secrets ignore_error kwargs cp output err :
  command_of cmd = Some command →
  subprocess_run command timeout (forwarded kwargs) = Ok cp →
  returncode cp ≠ 0%Z →
  decode (stdout cp) = Some output →
  decode (stderr cp) = Some err →
  Log ERROR (lit "Command finished with non zero ("
             ++ str_of_int (returncode cp) ++ lit "): " ++ err)
    ∈ events (run_command cmd timeout out_format secrets ignore_error kwargs).
Proof.
  intros Hcmd Hrun Hrc Hout Herr.
  rewrite run_command_events, Hcmd, run_argv_unfold.
  rewrite !events_bind, Hrun. simpl.
  rewrite (finish_decoded _ _ _ _ _ output err) by done.
  unfold events at 1. cbn [fst]. unfold branch.
  rewrite bool_decide_eq_true_2 by done.
  rewrite on_failure_events. set_solver.
Qed.

(** C2 fails on the code.  The process ends with exit code 3 and has
    written the secret to its standard error.  The command and the
    warning line carry asterisks; line 122 then logs the standard error
    unmasked, so the secret is in a message handed to the logger. *)
Lemma error_log_leaks_secret :
  let secret := lit "hunter2" in
  let r := Scenario.run 3 [] (blit "login failed for hunter2")
             (OList [OStr (lit "db-login"); OStr (lit "--password");
                     OStr (lit "hunter2")])
             default_out_format (Some [secret]) true in
  events r
  = [ Log INFO (lit "Executing command: ['db-login', '--password', '*****']");
      Log INFO (lit "Formatting output as string");
      SubprocessRun [OStr (lit "db-login"); OStr (lit "--password");
                     OStr (lit "hunter2")] 600 (forwarded ∅);
      Log DEBUG (lit "Command stdout is empty");
      Log WARNING (lit "Command stderr: login failed for *****");
      Log DEBUG (lit "Command return code: 3");
      Log ERROR (lit "Command finished with non zero (3): login failed for hunter2") ]
  ∧ existsb (contains secret) (logged r) = true.
Proof. split; reflexivity. Qed.

(** *** The list format *)

(** X6.  On an output that ends with a line feed the format "list"
    returns the lines, without the empty string that follows the last
    line feed. *)
Lemma list_format_of_terminated_output `{E : Externals}
    cmd command timeout out_format secrets ignore_error kwargs cp
    (text : str) err :
  command_of cmd = Some command →
  subprocess_run command timeout (forwarded kwargs) = Ok cp →
  returncode cp = 0%Z →
  decode (stdout cp) = Some (text ++ [LF]) →
  decode (stderr cp) = Some err →
  effective_format out_format kwargs = OStr (lit "list") →
  result (run_command cmd timeout out_format secrets ignore_error kwargs)
  = Returns (VObj (OList (OStr <$> split_on LF text))).
Proof.
  intros Hcmd Hrun Hrc Hout Herr Hfmt.
  rewrite (run_command_completed _ _ _ _ _ _ _ _ _ _ Hcmd Hrun Hout Herr).
  unfold branch. rewrite Hrc, Hfmt.
  rewrite bool_decide_eq_false_2 by (by intros []).
  by rewrite on_success_list, split_on_snoc_sep, pop_snoc.
Qed.

(** The output of three lines, each ended by a line feed. *)
Lemma list_format_three_lines :
  result (Scenario.run 0 (blit "a" ++ [Scenario.LFb] ++ blit "b"
                          ++ [Scenario.LFb] ++ blit "c" ++ [Scenario.LFb]) []
            (OStr (lit "printf a\nb\nc\n")) (OStr (lit "list")) None false)
  = Returns (VObj (OList [OStr (lit "a"); OStr (lit "b"); OStr (lit "c")])).
Proof. reflexivity. Qed.

(** X7.  In general the format "list" returns the split without its
    last element, and that element is empty only when the output is
    empty or ends with a line feed: of any other output the last line is
    lost. *)
Lemma list_format_drops_last_element `{E : Externals}
    cmd command timeout out_format secrets ignore_error kwargs cp output err :
  command_of cmd = Some command →
  subprocess_run command timeout (forwarded kwargs) = Ok cp →
  returncode cp = 0%Z →
  decode (stdout cp) = Some output →
  decode (stderr cp) = Some err →
  effective_format out_format kwargs = OStr (lit "list") →
  ∃ kept dropped,
    split_on LF output = kept ++ [dropped]
    ∧ result (run_command cmd timeout out_format secrets ignore_error kwargs)
      = Returns (VObj (OList (OStr <$> kept)))
    ∧ (dropped = [] → output = [] ∨ ∃ text, output = text ++ [LF]).
Proof.
  intros Hcmd Hrun Hrc Hout Herr Hfmt.
  destruct (pop_is_Some _ (split_on_nonempty LF output)) as [[kept dropped] Hpop].
  exists kept, dropped.
  pose proof (pop_inv _ _ _ Hpop) as Hsplit.
  split; [done|]. split.
  - rewrite (run_command_completed _ _ _ _ _ _ _ _ _ _ Hcmd Hrun Hout Herr).
    unfold branch. rewrite Hrc, Hfmt.
    rewrite bool_decide_eq_false_2 by (by intros []).
    by rewrite on_success_list, Hpop.
  - intros ->. apply (split_on_last_empty LF).
    by rewrite Hsplit, last_snoc.
Qed.

(** C4 fails on the code.  The process ends with exit code 0 and has
    written two lines, the second without a line feed after it: the
    split has the elements "a" and "b", [pop()] removes "b", and the
    function returns the list of "a" alone. *)
Lemma list_format_loses_unterminated_line :
  let out := blit "a" ++ [Scenario.LFb] ++ blit "b" in
  decode out = Some (lit "a" ++ [LF] ++ lit "b")
  ∧ split_on LF (lit "a" ++ [LF] ++ lit "b") = [lit "a"; lit "b"]
  ∧ result (Scenario.run 0 out [] (OList [OStr (lit "printf"); OStr (lit "a\nb")])
              (OStr (lit "list")) None false)
    = Returns (VObj (OList [OStr (lit "a")])).
Proof. repeat split; reflexivity. Qed.

(** ** More on the command runner *)

(** *** What can be raised *)

(** The zero branch raises only what the parser of the format in force
    raises. *)
Lemma on_success_raises_parser `{E : Externals} out_format cp output (e : exn) :
  result (on_success out_format cp output) = Raises e →
  ∃ name, e = Foreign name
    ∧ ((out_format = OStr (lit "json") ∧ json_loads output = Failed name)
       ∨ (out_format = OStr (lit "yaml")
          ∧ yaml_safe_load output = Failed name)).
Proof.
  destruct (eq_str out_format (lit "exit_code")) eqn:H1;
    [apply eq_str_true in H1 as ->; by rewrite on_success_exit_code|].
  destruct (eq_str out_format (lit "cpobj")) eqn:H2;
    [apply eq_str_true in H2 as ->; by rewrite on_success_cpobj|].
  destruct (eq_str out_format (lit "list")) eqn:H3.
  { apply eq_str_true in H3 as ->. rewrite on_success_list.
    destruct (pop_is_Some _ (split_on_nonempty LF output)) as [[l x] ->].
    done. }
  destruct (eq_str out_format (lit "json")) eqn:H4.
  { apply eq_str_true in H4 as ->. rewrite on_success_json.
    destruct (json_loads output) eqn:Hj; [done|].
    intros [= <-]. eexists. split; [done|]. by left. }
  destruct (eq_str out_format (lit "yaml")) eqn:H5.
  { apply eq_str_true in H5 as ->. rewrite on_success_yaml.
    destruct (yaml_safe_load output) eqn:Hy; [done|].
    intros [= <-]. eexists. split; [done|]. by right. }
  by rewrite on_success_text.
Qed.

(** X1.  A call of [run_command] that raises does so for one of four
    reasons, each with its cause.  The exception of a collaborator: of
    the masking helper, given a command that is neither a string nor a
    list; of [subprocess.run]; or, after exit code 0, of the parser of
    the format "json" or "yaml".  [AttributeError], when
    [subprocess.run] has returned the streams as text.
    [UnicodeDecodeError], when one of the streams, returned as bytes, is
    not valid UTF-8.  [CommandFailed], when the exit code is not zero
    and [ignore_error] is false. *)
Theorem run_command_raises_by_cause `{E : Externals}
    cmd timeout out_format secrets ignore_error kwargs (e : exn) :
  result (run_command cmd timeout out_format secrets ignore_error kwargs)
  = Raises e →
  (command_of cmd = None
   ∧ ∃ name, e = Foreign name ∧ mask_foreign cmd secrets = Failed name)
  ∨ ∃ command, command_of cmd = Some command ∧
      match subprocess_run command timeout (forwarded kwargs) with
      | Failed name => e = Foreign name
      | Ok (CapturedText _) => e = AttributeError
      | Ok (Captured cp) =>
          match decode (stdout cp), decode (stderr cp) with
          | Some output, Some err =>
              if bool_decide (returncode cp ≠ 0%Z)
              then ignore_error = false
                   ∧ e = CommandFailed
                           (failure_message (mask_secrets cmd secrets)
                              (mask_secrets (OStr err) secrets))
              else ∃ name, e = Foreign name
                     ∧ ((effective_format out_format kwargs = OStr (lit "json")
                         ∧ json_loads output = Failed name)
                        ∨ (effective_format out_format kwargs
                           = OStr (lit "yaml")
                           ∧ yaml_safe_load output = Failed name))
          | _, _ => e = UnicodeDecodeError
          end
      end.
Proof.
  rewrite run_command_result.
  destruct (command_of cmd) as [command|].
  2: { destruct (mask_foreign cmd secrets) as [|name]; [done|].
       intros [= <-]. left. split; [done|]. by eexists. }
  intros Hraise. right. exists command. split; [done|].
  rewrite run_argv_result in Hraise.
  destruct (subprocess_run command timeout (forwarded kwargs))
    as [[cp|tp]|name]; [|by injection Hraise..].
  destruct (decode (stdout cp)) as [output|] eqn:Hout.
  2: { rewrite finish_stdout_undecodable in Hraise by done.
       by injection Hraise. }
  destruct (decode (stderr cp)) as [err|] eqn:Herr.
  2: { rewrite finish_stderr_undecodable in Hraise by done.
       by injection Hraise. }
  rewrite (finish_decoded _ _ _ _ _ output err) in Hraise by done.
  unfold result at 1 in Hraise. cbn [snd] in Hraise. unfold branch in Hraise.
  case_bool_decide.
  - rewrite on_failure_result in Hraise.
    destruct ignore_error;
      [by destruct (eq_str (effective_format out_format kwargs) (lit "cpobj"))|].
    by injection Hraise.
  - by apply on_success_raises_parser in Hraise.
Qed.

(** The option [text=True] reaches [subprocess.run], the streams come
    back as text, and the call ends in [AttributeError]. *)
Lemma run_command_raises_by_cause_witness :
  let E := Worlds.text_aware 0 (blit "ok") [] in
  let options : gmap str pyobj := {[ lit "text" := OBool true ]} in
  result (run_command (OStr (lit "ls")) 600 default_out_format None false
            options)
  = Raises AttributeError
  ∧ ((command_of (OStr (lit "ls")) = None
      ∧ ∃ name, AttributeError = Foreign name
                ∧ mask_foreign (OStr (lit "ls")) None = Failed name)
     ∨ ∃ command, command_of (OStr (lit "ls")) = Some command ∧
         match subprocess_run command 600 (forwarded options) with
         | Ok (CapturedText _) => True
         | _ => False
         end).
Proof.
  intros E options.
  assert (result (run_command (OStr (lit "ls")) 600 default_out_format None
                    false options) = Raises AttributeError) as Hraise
    by reflexivity.
  split; [exact Hraise|].
  destruct (run_command_raises_by_cause (E := E) _ _ _ _ _ _ _ Hraise)
    as [Hl|(command & Hcmd & Hcause)].
  - by left.
  - right. exists command. split; [exact Hcmd|].
    injection Hcmd as <-. exact I.
Defined.

(** *** The call of [subprocess.run] *)

(** X2.  Whatever happens afterwards, [run_command] calls
    [subprocess.run] exactly once when the command is a string or a
    list: with the words of the string, or with the list as it is, with
    the caller's timeout, and with the options in which the three
    streams are pipes. *)
Theorem one_subprocess_call `{E : Externals}
    (s : str) (l : list pyobj) timeout out_format secrets ignore_error kwargs :
  spawned (run_command (OStr s) timeout out_format secrets ignore_error kwargs)
  = [(OStr <$> split_ws s, timeout, forwarded kwargs)]
  ∧ spawned (run_command (OList l) timeout out_format secrets ignore_error
               kwargs)
    = [(l, timeout, forwarded kwargs)].
Proof. split; by rewrite run_command_spawned. Qed.

(** X3.  In the options handed to [subprocess.run] the keys "stdout",
    "stderr" and "stdin" are [subprocess.PIPE], whatever the caller gave
    for them; every option other than these three and "out_format" is
    handed on as the caller gave it. *)
Theorem streams_forced_to_pipes `{E : Externals}
    cmd timeout out_format secrets ignore_error kwargs
    (argv : list pyobj) (t : Z) (kw : gmap str pyobj) :
  (argv, t, kw)
    ∈ spawned (run_command cmd timeout out_format secrets ignore_error kwargs) →
  kw !! lit "stdout" = Some PIPE
  ∧ kw !! lit "stderr" = Some PIPE
  ∧ kw !! lit "stdin" = Some PIPE
  ∧ ∀ key, key ∉ [lit "stdout"; lit "stderr"; lit "stdin"; lit "out_format"] →
           kw !! key = kwargs !! key.
Proof.
  rewrite run_command_spawned.
  destruct (command_of cmd); [|by intros ?%elem_of_nil].
  intros [= -> -> ->]%list_elem_of_singleton.
  destruct (forwarded_pipes kwargs) as (H1 & H2 & H3).
  repeat split; try done.
  intros key Hkey. by apply forwarded_other.
Qed.

Lemma streams_forced_to_pipes_witness :
  let kwargs : gmap str pyobj :=
    {[ lit "stdout" := ONone; lit "cwd" := OStr (lit "/tmp") ]} in
  let kw := forwarded kwargs in
  kw !! lit "stdout" = Some PIPE
  ∧ kw !! lit "stderr" = Some PIPE
  ∧ kw !! lit "stdin" = Some PIPE
  ∧ ∀ key, key ∉ [lit "stdout"; lit "stderr"; lit "stdin"; lit "out_format"] →
           kw !! key = kwargs !! key.
Proof.
  intros kwargs kw.
  refine (streams_forced_to_pipes (E := Scenario.world 0 [] [])
            (OStr (lit "ls")) 600 default_out_format None false kwargs
            [OStr (lit "ls")] 600 kw _).
  apply list_elem_of_singleton. reflexivity.
Defined.

(** X4.  When [subprocess.run] itself raises (a timeout, a missing
    executable), the exception leaves [run_command] as it is: the two
    INFO lines have been logged, nothing is logged afterwards, and
    [ignore_error] does not hold it back. *)
Theorem subprocess_failure_propagates `{E : Externals}
    cmd command timeout out_format secrets ignore_error kwargs (name : str) :
  command_of cmd = Some command →
  subprocess_run command timeout (forwarded kwargs) = Failed name →
  run_command cmd timeout out_format secrets ignore_error kwargs
  = ([ Log INFO (lit "Executing command: " ++ fmt (mask_secrets cmd secrets));
       Log INFO (lit "Formatting output as "
                 ++ fmt (effective_format out_format kwargs));
       SubprocessRun command timeout (forwarded kwargs) ],
     Raises (Foreign name)).
Proof.
  intros Hcmd Hrun. apply M_eq.
  - rewrite run_command_events, Hcmd, run_argv_unfold.
    rewrite !events_bind, Hrun. done.
  - by rewrite run_command_result, Hcmd, run_argv_result, Hrun.
Qed.

Lemma subprocess_failure_propagates_witness :
  run_command (E := Worlds.failing (lit "TimeoutExpired"))
    (OStr (lit "sleep 5")) 1 default_out_format None true ∅
  = ([ Log INFO (lit "Executing command: sleep 5");
       Log INFO (lit "Formatting output as string");
       SubprocessRun [OStr (lit "sleep"); OStr (lit "5")] 1 (forwarded ∅) ],
     Raises (Foreign (lit "TimeoutExpired"))).
Proof.
  refine (subprocess_failure_propagates
            (E := Worlds.failing (lit "TimeoutExpired"))
            (OStr (lit "sleep 5")) [OStr (lit "sleep"); OStr (lit "5")] 1
            default_out_format None true ∅ (lit "TimeoutExpired") _ _);
    reflexivity.
Defined.

(** *** The log of a run *)

(** X5.  Once the process has finished and both streams decode, the log
    of a run is fixed: two INFO lines (the masked command, the format),
    the call of [subprocess.run], one line for the standard output
    (DEBUG), one for the standard error (WARNING when there is some,
    DEBUG when empty), the exit code (DEBUG) and, after a non-zero exit
    code only, one ERROR line.  Nothing else is logged, whatever the
    format and whether or not the call then raises. *)
Theorem log_of_completed_run `{E : Externals}
    cmd command timeout out_format secrets ignore_error kwargs cp output err :
  command_of cmd = Some command →
  subprocess_run command timeout (forwarded kwargs) = Ok cp →
  decode (stdout cp) = Some output →
  decode (stderr cp) = Some err →
  events (run_command cmd timeout out_format secrets ignore_error kwargs)
  = [ Log INFO (lit "Executing command: " ++ fmt (mask_secrets cmd secrets));
      Log INFO (lit "Formatting output as "
                ++ fmt (effective_format out_format kwargs));
      SubprocessRun command timeout (forwarded kwargs);
      (if (0 <? length output)%nat
       then Log DEBUG (lit "Command stdout: "
                       ++ fmt (mask_secrets (OStr output) secrets))
       else Log DEBUG (lit "Command stdout is empty"));
      (if (0 <? length err)%nat
       then Log WARNING (lit "Command stderr: "
                         ++ fmt (mask_secrets (OStr err) secrets))
       else Log DEBUG (lit "Command stderr is empty"));
      Log DEBUG (lit "Command return code: " ++ str_of_int (returncode cp)) ]
    ++ (if bool_decide (returncode cp ≠ 0%Z)
        then [Log ERROR (lit "Command finished with non zero ("
                         ++ str_of_int (returncode cp) ++ lit "): " ++ err)]
        else []).
Proof.
  intros Hcmd Hrun Hout Herr.
  rewrite run_command_events, Hcmd, run_argv_unfold.
  rewrite !events_bind, Hrun. simpl.
  rewrite (finish_decoded _ _ _ _ _ output err) by done.
  unfold events at 1. cbn [fst]. unfold branch, stream_logs.
  case_bool_decide.
  - by rewrite on_failure_events.
  - by rewrite on_success_events.
Qed.

Lemma log_of_completed_run_witness :
  events (Scenario.run 0 (blit "v1.2") [] (OStr (lit "tool --version"))
            (OStr (lit "list")) None false)
  = [ Log INFO (lit "Executing command: tool --version");
      Log INFO (lit "Formatting output as list");
      SubprocessRun [OStr (lit "tool"); OStr (lit "--version")] 600
        (forwarded ∅);
      Log DEBUG (lit "Command stdout: v1.2");
      Log DEBUG (lit "Command stderr is empty");
      Log DEBUG (lit "Command return code: 0") ].
Proof.
  refine (log_of_completed_run (E := Scenario.world 0 (blit "v1.2") [])
            (OStr (lit "tool --version"))
            [OStr (lit "tool"); OStr (lit "--version")] default_timeout
            (OStr (lit "list")) None false ∅
            {| args := [OStr (lit "tool"); OStr (lit "--version")];
               returncode := 0; stdout := blit "v1.2"; stderr := [] |}
            (lit "v1.2") [] _ _ _ _);
    reflexivity.
Defined.

(** *** More on the formats *)

(** The witness of [list_format_of_terminated_output]: two lines, each
    ended by a line feed. *)
Lemma list_format_of_terminated_output_witness :
  result (Scenario.run 0 (blit "a" ++ [Scenario.LFb] ++ blit "b"
                          ++ [Scenario.LFb]) []
            (OStr (lit "ls")) (OStr (lit "list")) None false)
  = Returns (VObj (OList [OStr (lit "a"); OStr (lit "b")])).
Proof.
  refine (list_format_of_terminated_output
            (E := Scenario.world 0 (blit "a" ++ [Scenario.LFb] ++ blit "b"
                                    ++ [Scenario.LFb]) [])
            (OStr (lit "ls")) [OStr (lit "ls")] default_timeout
            (OStr (lit "list")) None false ∅
            {| args := [OStr (lit "ls")]; returncode := 0;
               stdout := blit "a" ++ [Scenario.LFb] ++ blit "b"
                         ++ [Scenario.LFb];
               stderr := [] |}
            (lit "a" ++ [LF] ++ lit "b") [] _ _ _ _ _ _);
    reflexivity.
Defined.

(** The witness of [list_format_drops_last_element]: a single line
    without a line feed is dropped, and the list is empty. *)
Lemma list_format_drops_last_element_witness :
  ∃ kept dropped,
    split_on LF (lit "v1.2") = kept ++ [dropped]
    ∧ result (Scenario.run 0 (blit "v1.2") [] (OStr (lit "tool --version"))
                (OStr (lit "list")) None false)
      = Returns (VObj (OList (OStr <$> kept)))
    ∧ (dropped = [] → lit "v1.2" = [] ∨ ∃ text, lit "v1.2" = text ++ [LF]).
Proof.
  refine (list_format_drops_last_element
            (E := Scenario.world 0 (blit "v1.2") [])
            (OStr (lit "tool --version"))
            [OStr (lit "tool"); OStr (lit "--version")] default_timeout
            (OStr (lit "list")) None false ∅
            {| args := [OStr (lit "tool"); OStr (lit "--version")];
               returncode := 0; stdout := blit "v1.2"; stderr := [] |}
            (lit "v1.2") [] _ _ _ _ _ _);
    reflexivity.
Defined.

(** X8.  With the format "json" (or "yaml") and exit code 0, the call
    returns what [json.loads] (or [yaml.safe_load]) makes of the decoded
    standard output, and a failure of the parser leaves the function as
    it is. *)
Theorem parsed_formats `{E : Externals}
    cmd command timeout out_format secrets ignore_error kwargs cp output err :
  command_of cmd = Some command →
  subprocess_run command timeout (forwarded kwargs) = Ok cp →
  returncode cp = 0%Z →
  decode (stdout cp) = Some output →
  decode (stderr cp) = Some err →
  let r := result (run_command cmd timeout out_format secrets ignore_error
                     kwargs) in
  (effective_format out_format kwargs = OStr (lit "json") →
   r = match json_loads output with
       | Ok o => Returns (VObj o)
       | Failed name => Raises (Foreign name)
       end)
  ∧ (effective_format out_format kwargs = OStr (lit "yaml") →
     r = match yaml_safe_load output with
         | Ok o => Returns (VObj o)
         | Failed name => Raises (Foreign name)
         end).
Proof.
  intros Hcmd Hrun Hrc Hout Herr r. subst r.
  rewrite (run_command_completed _ _ _ _ _ _ _ _ _ _ Hcmd Hrun Hout Herr).
  unfold branch. rewrite Hrc.
  rewrite bool_decide_eq_false_2 by (by intros []).
  split; intros ->.
  - apply on_success_json.
  - apply on_success_yaml.
Qed.

Lemma parsed_formats_witness :
  let E := Worlds.parsing 0 (blit "41") [] (OInt 41) in
  let r := result (run_command (OStr (lit "echo 41")) 600 (OStr (lit "json"))
                     None false ∅) in
  (effective_format (OStr (lit "json")) ∅ = OStr (lit "json") →
   r = match json_loads (lit "41") with
       | Ok o => Returns (VObj o)
       | Failed name => Raises (Foreign name)
       end)
  ∧ (effective_format (OStr (lit "json")) ∅ = OStr (lit "yaml") →
     r = match yaml_safe_load (lit "41") with
         | Ok o => Returns (VObj o)
         | Failed name => Raises (Foreign name)
         end).
Proof.
  refine (parsed_formats (E := Worlds.parsing 0 (blit "41") [] (OInt 41))
            (OStr (lit "echo 41")) [OStr (lit "echo"); OStr (lit "41")] 600
            (OStr (lit "json")) None false ∅
            {| args := [OStr (lit "echo"); OStr (lit "41")]; returncode := 0;
               stdout := blit "41"; stderr := [] |}
            (lit "41") [] _ _ _ _ _);
    reflexivity.
Defined.

(** X9.  With the format "cpobj" the call returns the
    [CompletedProcess] itself, after exit code 0 and, when
    [ignore_error] is true, after any other exit code too. *)
Theorem cpobj_format_returns_process `{E : Externals}
    cmd command timeout out_format secrets ignore_error kwargs cp output err :
  command_of cmd = Some command →
  subprocess_run command timeout (forwarded kwargs) = Ok cp →
  decode (stdout cp) = Some output →
  decode (stderr cp) = Some err →
  effective_format out_format kwargs = OStr (lit "cpobj") →
  returncode cp = 0%Z ∨ ignore_error = true →
  result (run_command cmd timeout out_format secrets ignore_error kwargs)
  = Returns (VProc cp).
Proof.
  intros Hcmd Hrun Hout Herr Hfmt Hok.
  rewrite (run_command_completed _ _ _ _ _ _ _ _ _ _ Hcmd Hrun Hout Herr).
  unfold branch. rewrite Hfmt. case_bool_decide as Hrc.
  - destruct Hok as [?| ->]; [done|]. by rewrite on_failure_result.
  - apply on_success_cpobj.
Qed.

Lemma cpobj_format_returns_process_witness :
  result (Scenario.run 2 (blit "out") (blit "boom") (OStr (lit "grep x f"))
            (OStr (lit "cpobj")) None true)
  = Returns (VProc {| args := [OStr (lit "grep"); OStr (lit "x");
                               OStr (lit "f")];
                      returncode := 2; stdout := blit "out";
                      stderr := blit "boom" |}).
Proof.
  refine (cpobj_format_returns_process
            (E := Scenario.world 2 (blit "out") (blit "boom"))
            (OStr (lit "grep x f"))
            [OStr (lit "grep"); OStr (lit "x"); OStr (lit "f")]
            default_timeout (OStr (lit "cpobj")) None true ∅ _
            (lit "out") (lit "boom") _ _ _ _ _ _);
    first [ reflexivity | by right ].
Defined.

(** X10.  The format is not validated: after exit code 0, any
    [out_format] other than the five strings "exit_code", "cpobj",
    "list", "json" and "yaml" (a misspelt name, or an object that is no
    string) gives the decoded standard output, as "string" does. *)
Theorem unknown_format_returns_text `{E : Externals}
    cmd command timeout out_format secrets ignore_error kwargs cp output err :
  command_of cmd = Some command →
  subprocess_run command timeout (forwarded kwargs) = Ok cp →
  returncode cp = 0%Z →
  decode (stdout cp) = Some output →
  decode (stderr cp) = Some err →
  effective_format out_format kwargs
    ∉ [OStr (lit "exit_code"); OStr (lit "cpobj"); OStr (lit "list");
       OStr (lit "json"); OStr (lit "yaml")] →
  result (run_command cmd timeout out_format secrets ignore_error kwargs)
  = Returns (VObj (OStr output)).
Proof.
  intros Hcmd Hrun Hrc Hout Herr Hfmt.
  rewrite (run_command_completed _ _ _ _ _ _ _ _ _ _ Hcmd Hrun Hout Herr).
  unfold branch. rewrite Hrc.
  rewrite bool_decide_eq_false_2 by (by intros []).
  apply on_success_text;
    (destruct (eq_str _ _) eqn:Heq; [|done];
     apply eq_str_true in Heq; rewrite Heq in Hfmt; set_solver).
Qed.

Lemma unknown_format_returns_text_witness :
  result (Scenario.run 0 (blit "a") [] (OStr (lit "echo a"))
            (OStr (lit "List")) None false)
  = Returns (VObj (OStr (lit "a"))).
Proof.
  refine (unknown_format_returns_text (E := Scenario.world 0 (blit "a") [])
            (OStr (lit "echo a")) [OStr (lit "echo"); OStr (lit "a")]
            default_timeout (OStr (lit "List")) None false ∅
            {| args := [OStr (lit "echo"); OStr (lit "a")]; returncode := 0;
               stdout := blit "a"; stderr := [] |}
            (lit "a") [] _ _ _ _ _ _);
    try reflexivity.
  intros Hin. repeat (apply elem_of_cons in Hin as [Hin|Hin]; [discriminate|]).
  by apply elem_of_nil in Hin.
Defined.

(** *** What the secrets and [ignore_error] cannot change *)

(** X11.  A value that [run_command] returns does not depend on the
    secrets: with any other list of secrets (or none) the same call
    returns the same value.  Masking reaches the log and the message of
    [CommandFailed] only.  The one exception is a command that is
    neither a string nor a list: the other secrets may make the masking
    helper raise on it, and then the call ends with that exception. *)
Theorem returned_value_ignores_secrets `{E : Externals}
    cmd timeout out_format secrets ignore_error kwargs
    (secrets' : option (list str)) (v : value) :
  result (run_command cmd timeout out_format secrets ignore_error kwargs)
  = Returns v →
  match result (run_command cmd timeout out_format secrets' ignore_error
                  kwargs) with
  | Returns v' => v' = v
  | Raises e =>
      isinstance_str cmd = false ∧ isinstance_list cmd = false
      ∧ ∃ name, e = Foreign name ∧ mask_foreign cmd secrets' = Failed name
  end.
Proof.
  rewrite !run_command_result.
  destruct (command_of cmd) as [command|] eqn:Hcmd.
  2: { destruct (mask_foreign cmd secrets); [|done]. intros [= <-].
       destruct (mask_foreign cmd secrets') as [|name]; [done|].
       repeat split; [by destruct cmd..|]. by eexists. }
  rewrite !run_argv_result.
  destruct (subprocess_run command timeout (forwarded kwargs))
    as [[cp|tp]|name]; [|done..].
  destruct (decode (stdout cp)) as [output|] eqn:Hout;
    [|by rewrite !finish_stdout_undecodable].
  destruct (decode (stderr cp)) as [err|] eqn:Herr;
    [|by rewrite !finish_stderr_undecodable].
  rewrite !(finish_decoded _ _ _ _ _ output err) by done.
  unfold result at 1 3. cbn [snd]. unfold branch.
  case_bool_decide; [|by intros ->].
  rewrite !on_failure_result. destruct ignore_error; [by intros ->|done].
Qed.

Lemma returned_value_ignores_secrets_witness :
  result (Scenario.run 0 (blit "token=hunter2") [] (OStr (lit "vault read"))
            (OStr (lit "list")) None false)
  = Returns (VObj (OList [])).
Proof.
  pose proof (returned_value_ignores_secrets
                (E := Scenario.world 0 (blit "token=hunter2") [])
                (OStr (lit "vault read")) default_timeout (OStr (lit "list"))
                (Some [lit "hunter2"]) false ∅ None (VObj (OList []))
                eq_refl) as H.
  unfold Scenario.run.
  destruct (result (run_command (E := Scenario.world 0 (blit "token=hunter2") [])
                      (OStr (lit "vault read")) default_timeout
                      (OStr (lit "list")) None false ∅)) as [v'|e].
  - by rewrite H.
  - by destruct H as (H & _).
Defined.

(** X12.  After exit code 0, [ignore_error] changes nothing: the log and
    the result of the call are the same with and without it. *)
Theorem ignore_error_idle_on_success `{E : Externals}
    cmd command timeout out_format secrets kwargs cp :
  command_of cmd = Some command →
  subprocess_run command timeout (forwarded kwargs) = Ok cp →
  returncode cp = 0%Z →
  run_command cmd timeout out_format secrets true kwargs
  = run_command cmd timeout out_format secrets false kwargs.
Proof.
  intros Hcmd Hrun Hrc.
  assert (finish cp (mask_secrets cmd secrets)
            (effective_format out_format kwargs) secrets true
          = finish cp (mask_secrets cmd secrets)
              (effective_format out_format kwargs) secrets false) as Hfinish.
  { destruct (decode (stdout cp)) as [output|] eqn:Hout;
      [|by rewrite !finish_stdout_undecodable].
    destruct (decode (stderr cp)) as [err|] eqn:Herr;
      [|by rewrite !finish_stderr_undecodable].
    rewrite !(finish_decoded _ _ _ _ _ output err) by done.
    unfold branch. rewrite Hrc.
    by rewrite bool_decide_eq_false_2 by (by intros []). }
  apply M_eq.
  - rewrite !run_command_events, Hcmd, !run_argv_events, Hrun.
    by rewrite Hfinish.
  - rewrite !run_command_result, Hcmd, !run_argv_result, Hrun.
    by rewrite Hfinish.
Qed.

Lemma ignore_error_idle_on_success_witness :
  Scenario.run 0 (blit "ok") [] (OStr (lit "true")) default_out_format None true
  = Scenario.run 0 (blit "ok") [] (OStr (lit "true")) default_out_format None
      false.
Proof.
  refine (ignore_error_idle_on_success (E := Scenario.world 0 (blit "ok") [])
            (OStr (lit "true")) [OStr (lit "true")] default_timeout
            default_out_format None ∅
            {| args := [OStr (lit "true")]; returncode := 0;
               stdout := blit "ok"; stderr := [] |} _ _ _);
    reflexivity.
Defined.

(** *** The words of a command string *)

(** X13.  A command given as a string reaches [subprocess.run] as words
    that are not empty and hold no whitespace: quotes are not read, so a
    string cannot carry an argument with a blank in it or an empty
    argument. *)
Theorem string_command_words `{E : Externals}
    (s : str) timeout out_format secrets ignore_error kwargs
    (argv : list pyobj) (t : Z) (kw : gmap str pyobj) :
  (argv, t, kw)
    ∈ spawned (run_command (OStr s) timeout out_format secrets ignore_error
                 kwargs) →
  Forall (λ a, ∃ w, a = OStr w ∧ w ≠ [] ∧ solid w) argv.
Proof.
  rewrite run_command_spawned. simpl.
  intros [= -> -> ->]%list_elem_of_singleton.
  apply Forall_fmap. eapply Forall_impl; [apply split_ws_solid|].
  intros w [Hw Hsolid]. by exists w.
Qed.

Lemma string_command_words_witness :
  Forall (λ a, ∃ w, a = OStr w ∧ w ≠ [] ∧ solid w)
    [OStr (lit "sh"); OStr (lit "-c"); OStr (lit "'echo"); OStr (lit "hi'")].
Proof.
  refine (string_command_words (E := Scenario.world 0 [] [])
            (lit "sh -c 'echo hi'") 600 default_out_format None false ∅
            [OStr (lit "sh"); OStr (lit "-c"); OStr (lit "'echo");
             OStr (lit "hi'")] 600 (forwarded ∅) _).
  apply list_elem_of_singleton. reflexivity.
Defined.

(** X14.  A command string that is empty or all whitespace is not
    refused: [subprocess.run] is called with an empty argument vector. *)
Theorem blank_command_runs_empty_argv `{E : Externals}
    (s : str) timeout out_format secrets ignore_error kwargs :
  blank s →
  spawned (run_command (OStr s) timeout out_format secrets ignore_error kwargs)
  = [([], timeout, forwarded kwargs)].
Proof.
  intros Hblank. rewrite run_command_spawned. simpl.
  rewrite <- (app_nil_r s). by rewrite split_ws_blank.
Qed.

Lemma blank_command_runs_empty_argv_witness :
  spawned (Scenario.run 0 [] [] (OStr (lit "   ")) default_out_format None false)
  = [([], 600%Z, forwarded ∅)].
Proof.
  refine (blank_command_runs_empty_argv (E := Scenario.world 0 [] [])
            (lit "   ") default_timeout default_out_format None false ∅ _).
  by repeat constructor.
Defined.

(** *** The keyword arguments of a call *)

Lemma bind_parameter_None positional keywords i name preset :
  bind_parameter positional keywords i name preset = None →
  (is_Some (positional !! i) ∧ is_Some (keywords !! name))
  ∨ (positional !! i = None ∧ keywords !! name = None ∧ preset = None).
Proof.
  unfold bind_parameter.
  destruct (positional !! i), (keywords !! name); try done.
  - left. by split; eexists.
  - by right.
Qed.

Lemma bind_parameter_value positional keywords i name (preset v : pyobj) :
  bind_parameter positional keywords i name (Some preset) = Some v →
  v = default (default preset (keywords !! name)) (positional !! i).
Proof.
  unfold bind_parameter.
  destruct (positional !! i), (keywords !! name); simpl; congruence.
Qed.

(** X15.  What the signature makes of a call.  The call ends in
    [TypeError] before the body starts exactly when it has more than
    five positional arguments, or gives a parameter both by position and
    by keyword, or gives no [cmd].  Otherwise [kwargs] holds the keyword
    arguments that name no parameter, none of the five names
    among them, and [timeout], [out_format], [secrets] and
    [ignore_error] are the positional argument, or else the keyword
    argument, or else the default of the signature. *)
Theorem call_binds_parameters positional keywords :
  (bind_arguments positional keywords = None
   ↔ length parameters < length positional
     ∨ (∃ i name, parameters !! i = Some name
          ∧ is_Some (positional !! i) ∧ is_Some (keywords !! name))
     ∨ (positional = [] ∧ keywords !! lit "cmd" = None))
  ∧ ∀ b : bound, bind_arguments positional keywords = Some b →
      (∀ name, name ∈ parameters → bound_kwargs b !! name = None)
      ∧ (∀ key, key ∉ parameters → bound_kwargs b !! key = keywords !! key)
      ∧ Some (bound_cmd b)
        = match positional !! 0 with
          | Some c => Some c
          | None => keywords !! lit "cmd"
          end
      ∧ bound_timeout b
        = default (default (OInt default_timeout) (keywords !! lit "timeout"))
            (positional !! 1)
      ∧ bound_out_format b
        = default (default default_out_format (keywords !! lit "out_format"))
            (positional !! 2)
      ∧ bound_secrets b
        = default (default ONone (keywords !! lit "secrets")) (positional !! 3)
      ∧ bound_ignore_error b
        = default (default (OBool false) (keywords !! lit "ignore_error"))
            (positional !! 4).
Proof.
  split; [split|].
  - unfold bind_arguments. case_decide as Hlen; [|intros _; left; lia].
    intros Hnone.
    assert (∃ i name preset,
               parameters !! i = Some name
               ∧ (i = 0 ∨ preset ≠ None)
               ∧ bind_parameter positional keywords i name preset = None)
      as (i & name & preset & Hi & Hpre & Hbind).
    { destruct (bind_parameter positional keywords 0 _ _) eqn:H0;
        [|exists 0, (lit "cmd"), None; split; [done|split; [by left|done]]].
      destruct (bind_parameter positional keywords 1 _ _) eqn:H1;
        [|eexists 1, _, _; split; [done|by split; [right|exact H1]]].
      destruct (bind_parameter positional keywords 2 _ _) eqn:H2;
        [|eexists 2, _, _; split; [done|by split; [right|exact H2]]].
      destruct (bind_parameter positional keywords 3 _ _) eqn:H3;
        [|eexists 3, _, _; split; [done|by split; [right|exact H3]]].
      destruct (bind_parameter positional keywords 4 _ _) eqn:H4;
        [|eexists 4, _, _; split; [done|by split; [right|exact H4]]].
      done. }
    right.
    apply bind_parameter_None in Hbind as [[Hp Hk]|(Hp & Hk & ->)].
    + left. by exists i, name.
    + right. destruct Hpre as [->|?]; [|done].
      injection Hi as <-. by destruct positional.
  - intros [Hlen|[(i & name & Hi & Hp & Hk)|[-> Hk]]].
    + unfold bind_arguments. by rewrite decide_False by lia.
    + unfold bind_arguments. case_decide; [|done].
      do 5 (destruct i as [|i];
            [injection Hi as <-;
             rewrite (bind_parameter_twice _ _ _ _ _ Hp Hk);
             by repeat (destruct (bind_parameter positional keywords _ _ _);
                        simpl; try done)|]).
      done.
    + unfold bind_arguments, bind_parameter. simpl. by rewrite Hk.
  - intros b Hb.
    split; [intros name Hname; by eapply bound_kwargs_parameter|].
    apply bind_arguments_Some in Hb as (_ & Hc & Ht & Ho & Hs & Hi & ->).
    split.
    { intros key Hkey.
      destruct (keywords !! key) as [x|] eqn:Hx.
      - by apply map_lookup_filter_Some.
      - apply map_lookup_filter_None. by left. }
    split.
    { unfold bind_parameter in Hc.
      destruct (positional !! 0), (keywords !! lit "cmd"); simpl; congruence. }
    by rewrite (bind_parameter_value _ _ _ _ _ _ Ht),
      (bind_parameter_value _ _ _ _ _ _ Ho),
      (bind_parameter_value _ _ _ _ _ _ Hs),
      (bind_parameter_value _ _ _ _ _ _ Hi).
Qed.

(** ** write_fio_on_pod *)

Module FioFacts.
Import Py Fio.

Section Bind.
Context {A B : Type}.
Implicit Types (m : M A) (k : A → M B).

Lemma fio_result_bind m k :
  result (m ≫= k) =
  match result m with
  | Returns a => result (k a)
  | Raises e => Raises e
  end.
Proof. unfold mbind, M_bind, bind. by destruct (result m). Qed.

Lemma fio_events_bind m k :
  events (m ≫= k) =
  events m ++ match result m with
              | Returns a => events (k a)
              | Raises _ => []
              end.
Proof.
  unfold mbind, M_bind, bind.
  destruct (result m); simpl; [done|]. by rewrite app_nil_r.
Qed.

End Bind.

Lemma fio_M_eq {A} (m1 m2 : M A) :
  events m1 = events m2 → result m1 = result m2 → m1 = m2.
Proof. destruct m1, m2; simpl; congruence. Qed.

(** Reading the error count leaves no event. *)
Lemma err_count_of_events (r : obj) : events (err_count_of r) = [].
Proof.
  unfold err_count_of. rewrite !fio_events_bind.
  destruct r as [| | | | |l|d]; try done. simpl.
  destruct (default JNone (d !! lit "jobs")) as [| | | |s|l|d']; try done.
  - destruct s; try done.
  - destruct l as [|j l]; try done. simpl. by destruct j.
Qed.

(** With a report whose "jobs" is a list, the error count is the
    "error" entry of the first element. *)
Lemma err_count_of_first_job (d : gmap str obj) (job : obj) (others : list obj) :
  d !! lit "jobs" = Some (JList (job :: others)) →
  err_count_of (JDict d) = get job (lit "error").
Proof.
  intros Hjobs. unfold err_count_of, mbind, M_bind, bind. simpl.
  rewrite Hjobs. simpl. by destruct (get job (lit "error")).
Qed.

Section WithPod.
Context `{W : PodWorld}.

(** The function once fio has reported. *)
Lemma write_fio_reported (file_size r : obj) :
  fillup_fs file_size pod_name = Effects.Ok tt →
  get_fio_results 3600 = Effects.Ok r →
  write_fio_on_pod file_size
  = ([ Log Effects.INFO (lit "Starting IO on the POD " ++ pod_name); Now;
       FillupFs file_size pod_name; GetFioResults 3600 ]
     ++ match result (err_count_of r) with
        | Returns c => events (verify file_size r c)
        | Raises _ => []
        end,
     match result (err_count_of r) with
     | Returns c => result (verify file_size r c)
     | Raises e => Raises e
     end).
Proof.
  intros Hfill Hres. unfold write_fio_on_pod.
  unfold mbind, M_bind, bind, call, log. cbn [events result fst snd].
  rewrite Hfill, Hres. cbn [events result fst snd].
  rewrite err_count_of_events.
  by destruct (result (err_count_of r)).
Qed.

(** The events of the second half, as far as it gets. *)
Lemma verify_eq (file_size r c : obj) :
  verify file_size r c
  = if eq_zero c
    then
      let head :=
        [ Log Effects.INFO (lit "IO on the PVC Finished"); Now;
          Log Effects.INFO
            (lit "Writing of " ++ show file_size ++ lit " took "
             ++ str_of_int (minutes_between (datetime_now 0) (datetime_now 1))
             ++ lit " mins");
          GetFilePath pod_name ] in
      match get_file_path pod_name with
      | Effects.Failed name => (head, Raises (Foreign name))
      | Effects.Ok p =>
          let mid :=
            head ++ [ Log Effects.INFO
                        (lit "Actual file path on the pod is " ++ show p
                         ++ lit ".");
                      CheckFileExistence p ] in
          match check_file_existence p with
          | Effects.Failed name => (mid, Raises (Foreign name))
          | Effects.Ok false =>
              (mid, Raises (AssertionError
                              (lit "File " ++ pod_name
                               ++ lit " does not exist")))
          | Effects.Ok true =>
              (mid ++ [ Log Effects.INFO
                          (lit "File " ++ pod_name ++ lit " exists in "
                           ++ pod_name ++ lit ".") ],
               Returns tt)
          end
      end
    else ([], Raises (AssertionError
                        (lit "IO error on pod " ++ pod_name
                         ++ lit ". FIO result: " ++ show r ++ lit "."))).
Proof.
  unfold verify, mbind, M_bind, bind, call, log, assert_.
  destruct (eq_zero c); [|done]. cbn [events result fst snd ret].
  destruct (get_file_path pod_name) as [p|name]; [|done].
  cbn [events result fst snd].
  destruct (check_file_existence p) as [[|]|name]; done.
Qed.

End WithPod.

(** X16.  [write_fio_on_pod] returns (nothing is raised) exactly when
    the pod accepted the write, fio reported within its timeout of 3600
    s, the error count read from the report equals 0, the path of the
    file was found and the file is there. *)
Theorem write_fio_returns_iff `{W : PodWorld} (file_size : obj) :
  result (write_fio_on_pod file_size) = Returns tt
  ↔ fillup_fs file_size pod_name = Effects.Ok tt
    ∧ ∃ r c p,
        get_fio_results 3600 = Effects.Ok r
        ∧ result (err_count_of r) = Returns c
        ∧ eq_zero c = true
        ∧ get_file_path pod_name = Effects.Ok p
        ∧ check_file_existence p = Effects.Ok true.
Proof.
  split.
  - destruct (fillup_fs file_size pod_name) as [[]|name] eqn:Hfill.
    2: { unfold write_fio_on_pod, mbind, M_bind, bind, call, log.
         cbn [events result fst snd]. by rewrite Hfill. }
    destruct (get_fio_results 3600) as [r|name] eqn:Hres.
    2: { unfold write_fio_on_pod, mbind, M_bind, bind, call, log.
         cbn [events result fst snd]. by rewrite Hfill, Hres. }
    rewrite (write_fio_reported file_size r Hfill Hres). cbn [result snd].
    destruct (result (err_count_of r)) as [c|] eqn:Hc; [|done].
    rewrite verify_eq.
    destruct (eq_zero c) eqn:Hz; [|done]. cbn zeta.
    destruct (get_file_path pod_name) as [p|] eqn:Hp; [|done].
    destruct (check_file_existence p) as [[|]|] eqn:Hf; try done.
    intros _. split; [done|]. by exists r, c, p.
  - intros (Hfill & r & c & p & Hres & Hc & Hz & Hp & Hf).
    rewrite (write_fio_reported file_size r Hfill Hres). cbn [result snd].
    rewrite Hc, verify_eq, Hz. cbn zeta. by rewrite Hp, Hf.
Qed.

(** X17.  On that path the function does the following, in this order
    and nothing else: it reads the clock, writes a file named after the
    pod with the given size, waits for fio with a timeout of 3600 s,
    reads the clock again, asks for the path of the file named after the
    pod and checks that this path exists; five lines are logged at INFO. *)
Theorem write_fio_success_trace `{W : PodWorld} (file_size r c p : obj) :
  fillup_fs file_size pod_name = Effects.Ok tt →
  get_fio_results 3600 = Effects.Ok r →
  result (err_count_of r) = Returns c →
  eq_zero c = true →
  get_file_path pod_name = Effects.Ok p →
  check_file_existence p = Effects.Ok true →
  events (write_fio_on_pod file_size)
  = [ Log Effects.INFO (lit "Starting IO on the POD " ++ pod_name);
      Now;
      FillupFs file_size pod_name;
      GetFioResults 3600;
      Log Effects.INFO (lit "IO on the PVC Finished");
      Now;
      Log Effects.INFO
        (lit "Writing of " ++ show file_size ++ lit " took "
         ++ str_of_int (minutes_between (datetime_now 0) (datetime_now 1))
         ++ lit " mins");
      GetFilePath pod_name;
      Log Effects.INFO (lit "Actual file path on the pod is " ++ show p
                        ++ lit ".");
      CheckFileExistence p;
      Log Effects.INFO (lit "File " ++ pod_name ++ lit " exists in "
                        ++ pod_name ++ lit ".") ].
Proof.
  intros Hfill Hres Hc Hz Hp Hf.
  rewrite (write_fio_reported file_size r Hfill Hres). cbn [events fst].
  rewrite Hc, verify_eq, Hz. cbn zeta. by rewrite Hp, Hf.
Qed.

Lemma write_fio_success_trace_witness :
  events (write_fio_on_pod (W := pod (report [JInt 0]) true) (JStr (lit "1G")))
  = [ Log Effects.INFO (lit "Starting IO on the POD pod-1");
      Now;
      FillupFs (JStr (lit "1G")) (lit "pod-1");
      GetFioResults 3600;
      Log Effects.INFO (lit "IO on the PVC Finished");
      Now;
      Log Effects.INFO (lit "Writing of 1G took 1 mins");
      GetFilePath (lit "pod-1");
      Log Effects.INFO (lit "Actual file path on the pod is /mnt/pod-1.");
      CheckFileExistence (JStr (lit "/mnt/pod-1"));
      Log Effects.INFO (lit "File pod-1 exists in pod-1.") ].
Proof.
  refine (write_fio_success_trace (W := pod (report [JInt 0]) true)
            (JStr (lit "1G")) (report [JInt 0]) (JInt 0)
            (JStr (lit "/mnt/pod-1")) _ _ _ _ _ _);
    reflexivity.
Defined.

(** X18.  When the error count read from the fio report is not 0, the
    function raises [AssertionError] with a message that names the pod
    and prints the report; it has made two calls on the pod, the write
    and the wait for fio, and does not look for the file. *)
Theorem fio_error_stops_before_file_check `{W : PodWorld}
    (file_size r c : obj) :
  fillup_fs file_size pod_name = Effects.Ok tt →
  get_fio_results 3600 = Effects.Ok r →
  result (err_count_of r) = Returns c →
  eq_zero c = false →
  write_fio_on_pod file_size
  = ([ Log Effects.INFO (lit "Starting IO on the POD " ++ pod_name); Now;
       FillupFs file_size pod_name; GetFioResults 3600 ],
     Raises (AssertionError
               (lit "IO error on pod " ++ pod_name ++ lit ". FIO result: "
                ++ show r ++ lit "."))).
Proof.
  intros Hfill Hres Hc Hz.
  rewrite (write_fio_reported file_size r Hfill Hres).
  by rewrite Hc, verify_eq, Hz.
Qed.

Lemma fio_error_stops_before_file_check_witness :
  write_fio_on_pod (W := pod (report [JInt 5]) true) (JStr (lit "1G"))
  = ([ Log Effects.INFO (lit "Starting IO on the POD pod-1"); Now;
       FillupFs (JStr (lit "1G")) (lit "pod-1"); GetFioResults 3600 ],
     Raises (AssertionError
               (lit "IO error on pod pod-1. FIO result: {...}."))).
Proof.
  refine (fio_error_stops_before_file_check (W := pod (report [JInt 5]) true)
            (JStr (lit "1G")) (report [JInt 5]) (JInt 5) _ _ _ _);
    reflexivity.
Defined.

(** X19.  Only the first job of the report decides.  When the "jobs"
    of the report is a list whose first element is a dictionary, and the
    file is then found, the function returns exactly when the "error"
    entry of that first job equals 0, and otherwise raises the
    [AssertionError] of line 33, whatever the other jobs of the list
    say.  An error recorded by a later job does not make the function
    fail. *)
Theorem only_first_job_is_read `{W : PodWorld}
    (file_size : obj) (d j : gmap str obj) (others : list obj) (p : obj) :
  fillup_fs file_size pod_name = Effects.Ok tt →
  get_fio_results 3600 = Effects.Ok (JDict d) →
  d !! lit "jobs" = Some (JList (JDict j :: others)) →
  get_file_path pod_name = Effects.Ok p →
  check_file_existence p = Effects.Ok true →
  result (write_fio_on_pod file_size)
  = if eq_zero (default JNone (j !! lit "error"))
    then Returns tt
    else Raises (AssertionError
                   (lit "IO error on pod " ++ pod_name ++ lit ". FIO result: "
                    ++ show (JDict d) ++ lit ".")).
Proof.
  intros Hfill Hres Hjobs Hp Hf.
  rewrite (write_fio_reported file_size (JDict d) Hfill Hres). cbn [result snd].
  rewrite (err_count_of_first_job d (JDict j) others Hjobs).
  unfold get, ret. cbn [result snd]. rewrite verify_eq.
  destruct (eq_zero (default JNone (j !! lit "error"))); [|done].
  cbn zeta. by rewrite Hp, Hf.
Qed.

(** A report of two jobs, the second with 7 errors, passes. *)
Lemma only_first_job_is_read_witness :
  result (write_fio_on_pod (W := pod (report [JInt 0; JInt 7]) true)
            (JStr (lit "1G")))
  = Returns tt.
Proof.
  refine (only_first_job_is_read (W := pod (report [JInt 0; JInt 7]) true)
            (JStr (lit "1G")) _
            {[ lit "jobname" := JStr (lit "fio"); lit "error" := JInt 0 ]}
            [JDict {[ lit "jobname" := JStr (lit "fio");
                      lit "error" := JInt 7 ]}]
            (JStr (lit "/mnt/pod-1")) _ _ _ _ _);
    reflexivity.
Defined.

(** X20.  A report of another shape does not end in the [AssertionError]
    of line 33 in every case: without a "jobs" entry the function raises
    [TypeError], with an empty list of jobs [IndexError], with a report
    that is no dictionary [AttributeError]; a first job without an
    "error" entry gives [None], which is not 0, and so the
    [AssertionError]. *)
Theorem malformed_fio_report `{W : PodWorld} (file_size r : obj) :
  fillup_fs file_size pod_name = Effects.Ok tt →
  get_fio_results 3600 = Effects.Ok r →
  let outcome := result (write_fio_on_pod file_size) in
  (∀ d, r = JDict d → d !! lit "jobs" = None → outcome = Raises TypeError)
  ∧ (∀ d, r = JDict d → d !! lit "jobs" = Some (JList []) →
          outcome = Raises IndexError)
  ∧ ((∀ d, r ≠ JDict d) → outcome = Raises AttributeError)
  ∧ (∀ d j others,
       r = JDict d → d !! lit "jobs" = Some (JList (JDict j :: others)) →
       j !! lit "error" = None →
       outcome = Raises (AssertionError
                           (lit "IO error on pod " ++ pod_name
                            ++ lit ". FIO result: " ++ show r ++ lit "."))).
Proof.
  intros Hfill Hres outcome. subst outcome.
  rewrite (write_fio_reported file_size r Hfill Hres). cbn [result snd].
  repeat split.
  - intros d -> Hjobs.
    unfold err_count_of, mbind, M_bind, bind. simpl. by rewrite Hjobs.
  - intros d -> Hjobs.
    unfold err_count_of, mbind, M_bind, bind. simpl. by rewrite Hjobs.
  - intros Hnot. destruct r as [| | | | | |d]; try done.
    by destruct (Hnot d).
  - intros d j others -> Hjobs Herr.
    rewrite (err_count_of_first_job d (JDict j) others Hjobs).
    unfold get, ret. cbn [result snd]. rewrite Herr. cbn [default].
    by rewrite verify_eq.
Qed.

Lemma malformed_fio_report_witness :
  let W := pod (JDict ∅) true in
  let r := JDict ∅ in
  let outcome := result (write_fio_on_pod (JStr (lit "1G"))) in
  (∀ d, r = JDict d → d !! lit "jobs" = None → outcome = Raises TypeError)
  ∧ (∀ d, r = JDict d → d !! lit "jobs" = Some (JList []) →
          outcome = Raises IndexError)
  ∧ ((∀ d, r ≠ JDict d) → outcome = Raises AttributeError)
  ∧ (∀ d j others,
       r = JDict d → d !! lit "jobs" = Some (JList (JDict j :: others)) →
       j !! lit "error" = None →
       outcome = Raises (AssertionError
                           (lit "IO error on pod " ++ pod_name
                            ++ lit ". FIO result: " ++ show r ++ lit "."))).
Proof.
  refine (malformed_fio_report (W := pod (JDict ∅) true) (JStr (lit "1G"))
            (JDict ∅) _ _);
    reflexivity.
Defined.

(** X21.  When fio reported no error and the file is not found, the
    function raises [AssertionError] with the message "File <name of the
    pod> does not exist", after the four calls on the pod. *)
Theorem missing_file_is_reported `{W : PodWorld} (file_size r c p : obj) :
  fillup_fs file_size pod_name = Effects.Ok tt →
  get_fio_results 3600 = Effects.Ok r →
  result (err_count_of r) = Returns c →
  eq_zero c = true →
  get_file_path pod_name = Effects.Ok p →
  check_file_existence p = Effects.Ok false →
  result (write_fio_on_pod file_size)
  = Raises (AssertionError (lit "File " ++ pod_name ++ lit " does not exist"))
  ∧ pod_calls (write_fio_on_pod file_size)
    = [ FillupFs file_size pod_name; GetFioResults 3600;
        GetFilePath pod_name; CheckFileExistence p ].
Proof.
  intros Hfill Hres Hc Hz Hp Hf.
  rewrite (write_fio_reported file_size r Hfill Hres).
  unfold pod_calls. cbn [result events fst snd].
  rewrite Hc, verify_eq, Hz. cbn zeta. by rewrite Hp, Hf.
Qed.

Lemma missing_file_is_reported_witness :
  result (write_fio_on_pod (W := pod (report [JInt 0]) false)
            (JStr (lit "1G")))
  = Raises (AssertionError (lit "File pod-1 does not exist"))
  ∧ pod_calls (write_fio_on_pod (W := pod (report [JInt 0]) false)
                 (JStr (lit "1G")))
    = [ FillupFs (JStr (lit "1G")) (lit "pod-1"); GetFioResults 3600;
        GetFilePath (lit "pod-1");
        CheckFileExistence (JStr (lit "/mnt/pod-1")) ].
Proof.
  refine (missing_file_is_reported (W := pod (report [JInt 0]) false)
            (JStr (lit "1G")) (report [JInt 0]) (JInt 0)
            (JStr (lit "/mnt/pod-1")) _ _ _ _ _ _);
    reflexivity.
Defined.

(** X22.  An exception of the pod leaves the function as it is, and no
    later call is made: when the write fails, fio is not waited for;
    when the wait for fio fails (its timeout, say), the file is not
    looked for. *)
Theorem pod_failure_propagates `{W : PodWorld} (file_size : obj) (name : str) :
  (fillup_fs file_size pod_name = Effects.Failed name →
   write_fio_on_pod file_size
   = ([ Log Effects.INFO (lit "Starting IO on the POD " ++ pod_name); Now;
        FillupFs file_size pod_name ],
      Raises (Foreign name)))
  ∧ (fillup_fs file_size pod_name = Effects.Ok tt →
     get_fio_results 3600 = Effects.Failed name →
     write_fio_on_pod file_size
     = ([ Log Effects.INFO (lit "Starting IO on the POD " ++ pod_name); Now;
          FillupFs file_size pod_name; GetFioResults 3600 ],
        Raises (Foreign name))).
Proof.
  split.
  - intros Hfill. unfold write_fio_on_pod, mbind, M_bind, bind, call, log.
    cbn [events result fst snd]. by rewrite Hfill.
  - intros Hfill Hres. unfold write_fio_on_pod, mbind, M_bind, bind, call, log.
    cbn [events result fst snd]. by rewrite Hfill, Hres.
Qed.

End FioFacts.
